(** * ChatBot.vue: the chat panel of the flight-log viewer

    A shallow embedding of [src/components/ChatBot.vue] (the component's
    [data], [computed], [methods] and [watch] blocks) together with the
    ECMAScript built-ins the component calls, and the properties of the
    component's specification that were checked against it.

    Layout:
    - [Js]      : the built-ins ([Number], [Math.min]/[Math.max],
                  [Number.prototype.toFixed], [String.prototype.trim],
                  property access on decoded JSON);
    - [Axios]   : how the HTTP client settles a request;
    - [ChatBot] : the component, its template and the event loop around it;
    - [Inputs], [Fields], [Invariants] : concrete inputs and auxiliary
                  definitions of the proofs;
    - the theorems: the summary badges ([Summary], [Badges], [Extremes],
                  [Header]), the chat ([Blank], [Chat], [Acceptance],
                  [Conversation], [Panel]) and formatting ([Format]). *)

From Stdlib Require Import ZArith String Ascii List SpecFloat DecimalString Lia.
From Stdlib Require DecimalPos DecimalZ.
From stdpp Require Import gmap strings list fin_maps.

Set Warnings "-register-all".

(* ===================================================================== *)
(** * ECMAScript built-ins *)
(* ===================================================================== *)

Module Js.

(** ** Numbers

    A JavaScript Number is an IEEE 754 binary64 value.  [spec_float] is the
    Standard Library's specification of such values: signed zeros,
    infinities, one NaN and [S754_finite s m e] for (-1)^s * m * 2^e. *)

Definition prec : Z := 53.
Definition emax : Z := 1024.

Definition number := spec_float.

Definition NaN : number := S754_nan.
Definition Infinity : number := S754_infinity false.
Definition zero : number := S754_zero false.

(** The Number nearest to [m * 2^e]; every decimal literal of the
    specification that is used below is of that form (1.0 = 1 * 2^0,
    5.25 = 21 * 2^-2). *)
Definition dyadic (m e : Z) : number := binary_normalize prec emax m e false.

Definition sub (x y : number) : number := SFsub prec emax x y.
Definition neg (x : number) : number := SFopp x.
Definition lt (x y : number) : bool := SFltb x y.

Definition isFinite (x : number) : bool :=
  match x with
  | S754_zero _ | S754_finite _ _ _ => true
  | S754_infinity _ | S754_nan => false
  end.

(** [ToNumber] on the result of reading a numeric field: a missing field
    reads as [undefined], which converts to NaN. *)
Definition ToNumber (v : option number) : number := default NaN v.

(** ** Math.min and Math.max (ECMA-262, 21.3.2.24 and 21.3.2.25) *)

Fixpoint min_loop (lowest : number) (coerced : list number) : number :=
  match coerced with
  | [] => lowest
  | n :: rest =>
      match n, lowest with
      | S754_nan, _ => NaN
      | S754_zero true, S754_zero false => min_loop n rest
      | _, _ => if lt n lowest then min_loop n rest else min_loop lowest rest
      end
  end.

Definition Math_min (args : list number) : number := min_loop Infinity args.

Fixpoint max_loop (highest : number) (coerced : list number) : number :=
  match coerced with
  | [] => highest
  | n :: rest =>
      match n, highest with
      | S754_nan, _ => NaN
      | S754_zero false, S754_zero true => max_loop n rest
      | _, _ => if lt highest n then max_loop n rest else max_loop highest rest
      end
  end.

Definition Math_max (args : list number) : number := max_loop (neg Infinity) args.

(** ** Number::toString for the values toFixed hands over to it

    [toFixed] calls Number::toString when the value is not finite or is at
    least 10^21 in magnitude.  Such a finite value is an integer
    [m * 2^e] with a 53-bit [m]; its string is the shortest decimal
    [s * 10^(n-k)] that rounds back to it, in exponential notation. *)

Definition digits (n : Z) : string := NilZero.string_of_uint (N.to_uint (Z.to_N n)).

(** Does the integer [v] round (to nearest, ties to even) to [m * 2^e]?
    Everything is scaled by 4 so that the midpoints are integers. *)
Definition rounds_to (m : positive) (e : Z) (v : Z) : bool :=
  let x4 := (4 * Z.pos m * 2 ^ e)%Z in
  let hi := (x4 + 2 * 2 ^ e)%Z in
  let lo := (if Pos.eqb m (2 ^ 52) then x4 - 2 ^ e else x4 - 2 * 2 ^ e)%Z in
  let v4 := (4 * v)%Z in
  ((lo <? v4)%Z && (v4 <? hi)%Z)
  || (Z.even (Z.pos m) && ((v4 =? lo)%Z || (v4 =? hi)%Z)).

(** The [k]-digit candidate for a value of [n] decimal digits, if any:
    the closest one, the even one on a tie. *)
Definition candidate (m : positive) (e : Z) (n k : nat) : option Z :=
  let x := (Z.pos m * 2 ^ e)%Z in
  let p := (10 ^ Z.of_nat (n - k))%Z in
  let s1 := (x / p)%Z in
  let s2 := (s1 + 1)%Z in
  match rounds_to m e (s1 * p), rounds_to m e (s2 * p) with
  | false, false => None
  | true, false => Some s1
  | false, true => Some s2
  | true, true =>
      if (x - s1 * p <? s2 * p - x)%Z then Some s1
      else if (s2 * p - x <? x - s1 * p)%Z then Some s2
      else if Z.even s1 then Some s1 else Some s2
  end.

(** Smallest [k] from [k] upwards that has a candidate. With [fuel] digits
    left to try the search ends at the latest on the exact digits of the
    value, which always round back. *)
Fixpoint shortest (m : positive) (e : Z) (n fuel k : nat) : Z * nat :=
  match candidate m e n k, fuel with
  | Some s, _ => (s, k)
  | None, S fuel' => shortest m e n fuel' (S k)
  | None, O => ((Z.pos m * 2 ^ e)%Z, n)
  end.

Definition exponential (m : positive) (e : Z) : string :=
  let x := (Z.pos m * 2 ^ e)%Z in
  let n := String.length (digits x) in
  let '(s, k) := shortest m e n n 1 in
  let '(s, n) := if (s =? 10 ^ Z.of_nat k)%Z then ((s / 10)%Z, S n) else (s, n) in
  let d := digits s in
  let mantissa := match d with
                  | String c ((String _ _) as rest) => String c ("." +:+ rest)
                  | _ => d
                  end in
  mantissa +:+ "e+" +:+ digits (Z.of_nat (n - 1)).

Definition Number_toString (x : number) : string :=
  match x with
  | S754_nan => "NaN"
  | S754_infinity false => "Infinity"
  | S754_infinity true => "-Infinity"
  | S754_zero _ => "0"
  | S754_finite s m e => (if s then "-" else "") +:+ exponential m e
  end.

(** ** Number.prototype.toFixed (ECMA-262, 21.1.3.3) *)

(** [10^21 <= m * 2^e] *)
Definition at_least_1e21 (m : positive) (e : Z) : bool :=
  if (0 <=? e)%Z then (10 ^ 21 <=? Z.pos m * 2 ^ e)%Z
  else (10 ^ 21 * 2 ^ (- e) <=? Z.pos m)%Z.

(** The integer [n] for which [n / 10^f - m * 2^e] is as close to zero as
    possible, the larger one if there are two:
    [floor (m * 2^e * 10^f + 1/2)]. *)
Definition nearest (m : positive) (e : Z) (f : nat) : Z :=
  let scaled := (Z.pos m * 10 ^ Z.of_nat f)%Z in
  if (0 <=? e)%Z then (scaled * 2 ^ e)%Z
  else ((2 * scaled + 2 ^ (- e)) / 2 ^ (1 - e))%Z.

(** Steps 10.b to 10.c: the decimal digits of [n] with a point before the
    last [f] of them, padded with zeros on the left to [f + 1] digits. *)
Definition fixed_point (n : Z) (f : nat) : string :=
  let m := digits n in
  match f with
  | O => m
  | S _ =>
      let k := String.length m in
      let m := if (k <=? f)%nat then string_of_list_ascii (replicate (f + 1 - k) "0"%char) +:+ m
               else m in
      let k := String.length m in
      substring 0 (k - f) m +:+ "." +:+ substring (k - f) f m
  end.

Definition toFixed (x : number) (fractionDigits : nat) : string :=
  match x with
  | S754_nan | S754_infinity _ => Number_toString x
  | S754_zero _ => fixed_point 0 fractionDigits
  | S754_finite s m e =>
      (if s then "-" else "")
      +:+ (if at_least_1e21 m e then exponential m e
           else fixed_point (nearest m e fractionDigits) fractionDigits)
  end.

(** ** String.prototype.trim (ECMA-262, 22.1.3.32)

    A string value is held as its UTF-8 bytes.  [trim] removes the code
    points of WhiteSpace and LineTerminator from both ends. *)

Definition utf8 (bytes : list N) : string :=
  string_of_list_ascii (map ascii_of_N bytes).

Definition WhiteSpace_LineTerminator : list string :=
  map utf8
    [ [0x09]; [0x0A]; [0x0B]; [0x0C]; [0x0D]; [0x20];      (* TAB LF VT FF CR SP *)
      [0xC2; 0xA0];                                        (* U+00A0 NBSP *)
      [0xE1; 0x9A; 0x80];                                  (* U+1680 *)
      [0xE2; 0x80; 0x80]; [0xE2; 0x80; 0x81]; [0xE2; 0x80; 0x82];
      [0xE2; 0x80; 0x83]; [0xE2; 0x80; 0x84]; [0xE2; 0x80; 0x85];
      [0xE2; 0x80; 0x86]; [0xE2; 0x80; 0x87]; [0xE2; 0x80; 0x88];
      [0xE2; 0x80; 0x89]; [0xE2; 0x80; 0x8A];              (* U+2000 .. U+200A *)
      [0xE2; 0x80; 0xA8]; [0xE2; 0x80; 0xA9];              (* U+2028 LS, U+2029 PS *)
      [0xE2; 0x80; 0xAF];                                  (* U+202F *)
      [0xE2; 0x81; 0x9F];                                  (* U+205F *)
      [0xE3; 0x80; 0x80];                                  (* U+3000 *)
      [0xEF; 0xBB; 0xBF] ]%N.                              (* U+FEFF ZWNBSP *)

(** [strip p s] is what follows [p] in [s] when [s] starts with [p]. *)
Fixpoint strip (p s : string) : option string :=
  match p, s with
  | EmptyString, _ => Some s
  | String a p', String b s' => if Ascii.eqb a b then strip p' s' else None
  | String _ _, EmptyString => None
  end.

Fixpoint strip_any (ps : list string) (s : string) : option string :=
  match ps with
  | [] => None
  | p :: ps' => match strip p s with
                | Some rest => Some rest
                | None => strip_any ps' s
                end
  end.

(** Every removal takes at least one byte, so [length s] rounds suffice. *)
Fixpoint trim_loop (ps : list string) (fuel : nat) (s : string) : string :=
  match fuel with
  | O => s
  | S fuel' => match strip_any ps s with
               | Some rest => trim_loop ps fuel' rest
               | None => s
               end
  end.

Definition trimStart (s : string) : string :=
  trim_loop WhiteSpace_LineTerminator (String.length s) s.

Definition trimEnd (s : string) : string :=
  String.rev (trim_loop (map String.rev WhiteSpace_LineTerminator)
                        (String.length s) (String.rev s)).

Definition trim (s : string) : string := trimEnd (trimStart s).

(** The strings made of white space and line terminators only. *)
Inductive whitespace_only : string → Prop :=
| blank_empty : whitespace_only ""
| blank_more (p s : string) :
    p ∈ WhiteSpace_LineTerminator → whitespace_only s → whitespace_only (p +:+ s).

(** ToBoolean on a string: only the empty string is falsy. *)
Definition truthy (s : string) : bool :=
  match s with EmptyString => false | String _ _ => true end.

(** ** Values decoded from JSON, and property access *)

Inductive value :=
| Undefined
| Null
| Bool (b : bool)
| Num (n : number)
| Str (s : string)
| Arr (elements : list value)
| Obj (fields : list (string * value)).

Inductive error :=
| TypeError (message : string)
| RangeError (message : string)
| NetworkError (message : string)
| RequestFailed (status : Z).

Inductive completion (A : Type) :=
| Normal (a : A)
| Throw (e : error).
Arguments Normal {A} a.
Arguments Throw {A} e.

Fixpoint assoc (k : string) (fields : list (string * value)) : value :=
  match fields with
  | [] => Undefined
  | (k', v) :: rest => if String.eqb k k' then v else assoc k rest
  end.

(** [v.k] for a key [k] that no prototype defines (such as "response"):
    reading a property of [undefined] or [null] throws a TypeError, an
    object gives the field or [undefined], every other value gives
    [undefined]. *)
Definition Get (v : value) (k : string) : completion value :=
  match v with
  | Undefined | Null => Throw (TypeError ("Cannot read properties of " +:+
                                 (match v with Null => "null" | _ => "undefined" end)))
  | Obj fields => Normal (assoc k fields)
  | Bool _ | Num _ | Str _ | Arr _ => Normal Undefined
  end.

(** ** Spread calls

    [f (...args)] passes every element of the array as an argument of its
    own, and a call with more arguments than the engine can take throws a
    RangeError.  ECMA-262 sets no bound; each engine has its own
    (JavaScriptCore's is fixed at 65536, V8's and SpiderMonkey's depend on
    the stack and are larger), so the bound is a parameter of the model,
    known only to be at least 65535. *)
Record engine := {
  max_arguments : N;
  max_arguments_floor : (65535 <=? max_arguments)%N = true
}.

Definition fits {A} (e : engine) (args : list A) : bool :=
  (N.of_nat (length args) <=? max_arguments e)%N.

(** [f (...args)] for [f] one of Math.min and Math.max, which convert
    every argument with ToNumber. *)
Definition spread (e : engine) (f : list number → number) (args : list (option number))
  : completion number :=
  if fits e args then Normal (f (map ToNumber args))
  else Throw (RangeError "Maximum call stack size exceeded").

(** ** Division, remainder, Math.floor and ToBoolean on Numbers *)

Definition div (x y : number) : number := SFdiv prec emax x y.

(** Number::remainder (ECMA-262, 6.1.6.1.6): the exact remainder of the
    truncating division, carrying the sign of the dividend. *)
Definition rem (n d : number) : number :=
  match n, d with
  | S754_nan, _ | _, S754_nan => NaN
  | S754_infinity _, _ => NaN
  | _, S754_zero _ => NaN
  | _, S754_infinity _ => n
  | S754_zero _, _ => n
  | S754_finite sn mn en, S754_finite _ md ed =>
      let e := Z.min en ed in
      let r := ((Z.pos mn * 2 ^ (en - e)) mod (Z.pos md * 2 ^ (ed - e)))%Z in
      binary_normalize prec emax (if sn then - r else r)%Z e sn
  end.

(** Math.floor (ECMA-262, 21.3.2.16): a value with a non-negative exponent
    is an integer already; otherwise the integer below [m / 2^-e]. *)
Definition Math_floor (x : number) : number :=
  match x with
  | S754_finite s m e =>
      if (0 <=? e)%Z then x
      else
        let q := (Z.pos m / 2 ^ (- e))%Z in
        let whole := (Z.pos m mod 2 ^ (- e) =? 0)%Z in
        if s then binary_normalize prec emax (- (if whole then q else q + 1))%Z 0 true
        else binary_normalize prec emax q 0 false
  | _ => x
  end.

(** ToBoolean on a Number: +0, -0 and NaN are falsy. *)
Definition truthy_number (x : number) : bool :=
  match x with
  | S754_zero _ | S754_nan => false
  | S754_infinity _ | S754_finite _ _ _ => true
  end.

(** ** Number::toString in radix 10 (ECMA-262, 6.1.6.1.20)

    For a positive finite [x = m * 2^e]: integers [n], [k], [s] with
    [10^(k-1) <= s < 10^k] such that [s * 10^(n-k)] rounds to [x], [k] as
    small as possible and then [s * 10^(n-k)] as close to [x] as possible;
    then the digits of [s] are laid out according to [n]. *)

(** [c * 2^e] against [4 * s * 10^t], both scaled to integers. *)
Definition scaled_bound (e t c : Z) : Z := (c * 2 ^ Z.max e 0 * 10 ^ Z.max (- t) 0)%Z.
Definition scaled_value (e t s : Z) : Z := (4 * s * 10 ^ Z.max t 0 * 2 ^ Z.max (- e) 0)%Z.

(** Does [s * 10^t] round (to nearest, ties to even) to [m * 2^e]?  The
    lower neighbour is half as far when [m] is a power of two. *)
Definition reads_back (m : positive) (e t s : Z) : bool :=
  let v := scaled_value e t s in
  let hi := scaled_bound e t (4 * Z.pos m + 2) in
  let lo := scaled_bound e t
              (if Pos.eqb m (2 ^ 52) && (-1074 <? e)%Z then 4 * Z.pos m - 1
               else 4 * Z.pos m - 2) in
  ((lo <? v)%Z && (v <? hi)%Z)
  || (Z.even (Z.pos m) && ((v =? lo)%Z || (v =? hi)%Z)).

(** The [n] with [10^(n-1) <= m * 2^e < 10^n]: the number of digits of the
    integer part, or for a value below 1 minus the number of zeros after
    the point. *)
Fixpoint zeros_after_point (fuel : nat) (num den : Z) (j : Z) : Z :=
  match fuel with
  | O => j
  | S fuel' => if (den <=? num * 10 ^ (j + 1))%Z then j
               else zeros_after_point fuel' num den (j + 1)
  end.

Definition magnitude (m : positive) (e : Z) : Z :=
  let num := (Z.pos m * 2 ^ Z.max e 0)%Z in
  let den := (2 ^ Z.max (- e) 0)%Z in
  if (den <=? num)%Z then Z.of_nat (String.length (digits (num / den)))
  else (- zeros_after_point (S (Z.to_nat (Z.log2 den))) num den 0)%Z.

(** The [k]-digit candidate at magnitude [n], if one reads back. *)
Definition decimal_candidate (m : positive) (e n k : Z) : option Z :=
  let t := (n - k)%Z in
  let s1 := ((Z.pos m * 2 ^ Z.max e 0 * 10 ^ Z.max (- t) 0)
             / (2 ^ Z.max (- e) 0 * 10 ^ Z.max t 0))%Z in
  let s2 := (s1 + 1)%Z in
  let x := scaled_bound e t (4 * Z.pos m) in
  let d1 := (x - scaled_value e t s1)%Z in
  let d2 := (scaled_value e t s2 - x)%Z in
  match reads_back m e t s1, reads_back m e t s2 with
  | false, false => None
  | true, false => Some s1
  | false, true => Some s2
  | true, true =>
      if (d1 <? d2)%Z then Some s1
      else if (d2 <? d1)%Z then Some s2
      else if Z.even s1 then Some s1 else Some s2
  end.

(** Seventeen digits always read back; [fuel] is the number of lengths
    still to try after [k]. *)
Fixpoint shortest_decimal (m : positive) (e n : Z) (fuel : nat) (k : Z) : Z * Z :=
  match decimal_candidate m e n k, fuel with
  | Some s, _ => (s, k)
  | None, S fuel' => shortest_decimal m e n fuel' (k + 1)
  | None, O => (0%Z, k)
  end.

Definition zeros (n : Z) : string := string_of_list_ascii (replicate (Z.to_nat n) "0"%char).

Definition layout (s n k : Z) : string :=
  let ds := digits s in
  if (k <=? n)%Z && (n <=? 21)%Z then ds +:+ zeros (n - k)
  else if (0 <? n)%Z && (n <=? 21)%Z then
    substring 0 (Z.to_nat n) ds +:+ "." +:+ substring (Z.to_nat n) (Z.to_nat (k - n)) ds
  else if (-6 <? n)%Z && (n <=? 0)%Z then "0." +:+ zeros (- n) +:+ ds
  else
    let exponent := (if (n - 1 <? 0)%Z then "-" else "+") +:+ digits (Z.abs (n - 1)) in
    if (k =? 1)%Z then ds +:+ "e" +:+ exponent
    else substring 0 1 ds +:+ "." +:+ substring 1 (Z.to_nat (k - 1)) ds +:+ "e" +:+ exponent.

Definition ToString (x : number) : string :=
  match x with
  | S754_nan => "NaN"
  | S754_zero _ => "0"
  | S754_infinity s => (if s then "-" else "") +:+ "Infinity"
  | S754_finite sign m e =>
      let n := magnitude m e in
      let '(s, k) := shortest_decimal m e n 20 1 in
      let '(s, n) := if (s =? 10 ^ k)%Z then ((s / 10)%Z, (n + 1)%Z) else (s, n) in
      (if sign then "-" else "") +:+ layout s n k
  end.

(** ** Object.is on Numbers: the same value, with +0 and -0 told apart and
    NaN the same as itself. *)
Definition Object_is (a b : number) : bool :=
  match a, b with
  | S754_nan, S754_nan => true
  | S754_zero s1, S754_zero s2 | S754_infinity s1, S754_infinity s2 => Bool.eqb s1 s2
  | S754_finite s1 m1 e1, S754_finite s2 m2 e2 =>
      Bool.eqb s1 s2 && Pos.eqb m1 m2 && Z.eqb e1 e2
  | _, _ => false
  end.

End Js.

(* ===================================================================== *)
(** * The HTTP client *)
(* ===================================================================== *)

Module Axios.

(** What can happen to a request on the wire. [data] is the decoded body
    (a body that is not JSON stays a [Str]). *)
Inductive outcome :=
| Timeout
| ConnectionRefused
| Response (status : Z) (data : Js.value).

Record response := { data : Js.value; status : Z }.

Inductive settled :=
| Fulfilled (r : response)
| Rejected (e : Js.error).

(** The default [validateStatus]: [status >= 200 && status < 300]. *)
Definition validateStatus (status : Z) : bool :=
  (200 <=? status)%Z && (status <? 300)%Z.

(** The promise returned by [axios.post] is fulfilled with the response
    when the status validates and is rejected otherwise. *)
Definition settle (o : outcome) : settled :=
  match o with
  | Timeout => Rejected (Js.NetworkError "timeout exceeded")
  | ConnectionRefused => Rejected (Js.NetworkError "Network Error")
  | Response status data =>
      if validateStatus status then Fulfilled {| data := data; status := status |}
      else Rejected (Js.RequestFailed status)
  end.

Definition rejects (o : outcome) : Prop :=
  match o with
  | Timeout | ConnectionRefused => True
  | Response status _ => validateStatus status = false
  end.

End Axios.

(* ===================================================================== *)
(** * The component *)
(* ===================================================================== *)

Module ChatBot.
Import Js.

(** ** Data model *)

(** A decoded telemetry record maps field names to numbers; FlightData
    maps a message-type name to its series of records. *)
Abbreviation record := (gmap string number).
Abbreviation FlightData := (gmap string (list (gmap string number))).

Record Message := { role : string; content : value }.

(** The [flightData] prop and the fields of [data ()]; [null] is [None]. *)
Record component := {
  flightData : FlightData;
  messages : list Message;
  newMessage : string;
  isLoading : bool;
  sessionId : option string;
  flightDuration : option number;
  altitudeRange : option string;
  batteryRange : option string
}.

Definition data (props : FlightData) : component :=
  {| flightData := props;
     messages := [];
     newMessage := "";
     isLoading := false;
     sessionId := None;
     flightDuration := None;
     altitudeRange := None;
     batteryRange := None |}.

(** Assignments to the fields of [this]. *)
Definition set_flightData (v : FlightData) (vm : component) : component :=
  {| flightData := v; messages := messages vm; newMessage := newMessage vm;
     isLoading := isLoading vm; sessionId := sessionId vm;
     flightDuration := flightDuration vm; altitudeRange := altitudeRange vm;
     batteryRange := batteryRange vm |}.

Definition set_messages (v : list Message) (vm : component) : component :=
  {| flightData := flightData vm; messages := v; newMessage := newMessage vm;
     isLoading := isLoading vm; sessionId := sessionId vm;
     flightDuration := flightDuration vm; altitudeRange := altitudeRange vm;
     batteryRange := batteryRange vm |}.

Definition set_newMessage (v : string) (vm : component) : component :=
  {| flightData := flightData vm; messages := messages vm; newMessage := v;
     isLoading := isLoading vm; sessionId := sessionId vm;
     flightDuration := flightDuration vm; altitudeRange := altitudeRange vm;
     batteryRange := batteryRange vm |}.

Definition set_isLoading (v : bool) (vm : component) : component :=
  {| flightData := flightData vm; messages := messages vm; newMessage := newMessage vm;
     isLoading := v; sessionId := sessionId vm;
     flightDuration := flightDuration vm; altitudeRange := altitudeRange vm;
     batteryRange := batteryRange vm |}.

Definition set_sessionId (v : option string) (vm : component) : component :=
  {| flightData := flightData vm; messages := messages vm; newMessage := newMessage vm;
     isLoading := isLoading vm; sessionId := v;
     flightDuration := flightDuration vm; altitudeRange := altitudeRange vm;
     batteryRange := batteryRange vm |}.

Definition set_flightDuration (v : option number) (vm : component) : component :=
  {| flightData := flightData vm; messages := messages vm; newMessage := newMessage vm;
     isLoading := isLoading vm; sessionId := sessionId vm;
     flightDuration := v; altitudeRange := altitudeRange vm;
     batteryRange := batteryRange vm |}.

Definition set_altitudeRange (v : option string) (vm : component) : component :=
  {| flightData := flightData vm; messages := messages vm; newMessage := newMessage vm;
     isLoading := isLoading vm; sessionId := sessionId vm;
     flightDuration := flightDuration vm; altitudeRange := v;
     batteryRange := batteryRange vm |}.

Definition set_batteryRange (v : option string) (vm : component) : component :=
  {| flightData := flightData vm; messages := messages vm; newMessage := newMessage vm;
     isLoading := isLoading vm; sessionId := sessionId vm;
     flightDuration := flightDuration vm; altitudeRange := altitudeRange vm;
     batteryRange := v |}.

(** [this.messages.push (m)] *)
Definition push (m : Message) (vm : component) : component :=
  set_messages (messages vm ++ [m]) vm.

(** ** computed *)

(** The own keys of an object, in some order; the component only looks at
    how many there are. *)
Definition Object_keys {A} (o : gmap string A) : list string := (map_to_list o).*1.

Definition hasFlightData (vm : component) : bool :=
  (0 <? length (Object_keys (flightData vm)))%nat.

(** ** methods: updateFlightInfo *)

(** [msg.timestamp] as an operand of [-]. *)
Definition timestamp (msg : gmap string number) : number := ToNumber (msg !! "timestamp").

Definition defined (v : option number) : bool :=
  match v with Some _ => true | None => false end.

(** [series.map (msg => msg.field).filter (x => x !== undefined)] *)
Definition column (field : string) (series : list (gmap string number)) : list (option number) :=
  List.filter defined (map (λ msg : gmap string number, msg !! field) series).

(** The template literal of the two range badges, and what it gives on
    the minimum and the maximum of a column. *)
Definition badge (unit : string) (min max : number) : string :=
  toFixed min 1 +:+ unit +:+ " - " +:+ toFixed max 1 +:+ unit.

Definition range (unit : string) (values : list (option number)) : string :=
  let min := Math_min (map ToNumber values) in
  let max := Math_max (map ToNumber values) in
  toFixed min 1 +:+ unit +:+ " - " +:+ toFixed max 1 +:+ unit.

(** A method body can throw part-way through its assignments: an action
    gives the component it leaves behind together with its completion. *)
Definition action (A : Type) : Type := component → component * completion A.

#[global] Instance action_ret : MRet action := λ A a vm, (vm, Normal a).

#[global] Instance action_bind : MBind action := λ A B k m vm,
  match m vm with
  | (vm', Normal a) => k a vm'
  | (vm', Throw err) => (vm', Throw err)
  end.

Definition eval {A} (c : completion A) : action A := λ vm, (vm, c).
Definition read {A} (field : component → A) : action A := λ vm, (vm, Normal (field vm)).
Definition assign (set : component → component) : action unit := λ vm, (set vm, Normal tt).

Definition updateFlightInfo (e : engine) : action unit :=
  has ← read hasFlightData;
  if negb has then mret tt
  else
    GPS ← read (λ this, flightData this !! "GPS");
    match GPS with
    | Some ((first :: _) as gpsData) =>
        assign (set_flightDuration
                  (Some (sub (timestamp (List.last gpsData first)) (timestamp first))))
    | _ => mret tt
    end;;
    ATT ← read (λ this, flightData this !! "ATT");
    match ATT with
    | Some ((_ :: _) as att) =>
        let altitudes := column "alt" att in
        match altitudes with
        | _ :: _ =>
            min ← eval (spread e Math_min altitudes);
            max ← eval (spread e Math_max altitudes);
            assign (set_altitudeRange (Some (badge "m" min max)))
        | [] => mret tt
        end
    | _ => mret tt
    end;;
    BAT ← read (λ this, flightData this !! "BAT");
    match BAT with
    | Some ((_ :: _) as bat) =>
        let voltages := column "volt" bat in
        match voltages with
        | _ :: _ =>
            min ← eval (spread e Math_min voltages);
            max ← eval (spread e Math_max voltages);
            assign (set_batteryRange (Some (badge "V" min max)))
        | [] => mret tt
        end
    | _ => mret tt
    end.

(** ** watch: flightData *)

Definition nl : string := String (ascii_of_N 10) "".

Definition greeting : Message :=
  {| role := "assistant";
     content := Str
       ("Flight data loaded! You can ask me questions about your flight, such as:" +:+ nl +:+
        "- What was the highest altitude reached?" +:+ nl +:+
        "- When did the GPS signal first get lost?" +:+ nl +:+
        "- What was the maximum battery temperature?" +:+ nl +:+
        "- How long was the total flight time?" +:+ nl +:+
        "- List all critical errors that happened mid-flight." +:+ nl +:+
        "- When was the first instance of RC signal loss?") |}.

(** [handler (newData)]; the prop has already been replaced when it runs.
    [newData] is an object, hence truthy.  An error thrown by
    [updateFlightInfo] leaves the handler before the greeting. *)
Definition handler (e : engine) (newData : FlightData) : action unit :=
  if (0 <? length (Object_keys newData))%nat then
    updateFlightInfo e;;
    messages ← read messages;
    if (length messages =? 0)%nat then assign (push greeting) else mret tt
  else mret tt.

(** ** mounted *)

Definition Date_toString (now : Z) : string :=
  if (now <? 0)%Z then "-" +:+ digits (- now) else digits now.

Definition mounted (now : Z) (vm : component) : component :=
  set_sessionId (Some (Date_toString now)) vm.

(** ** methods: sendMessage

    The component lives in a world that also holds the requests in flight,
    what the component wrote to the developer console, the callbacks
    queued for the next render pass and the engine it all runs on. *)

Record request := { url : string; message : string; session : option string }.

Record world := {
  this : component;
  inflight : list request;
  console : list error;
  nextTick : nat;
  host : engine
}.

Definition with_this (vm : component) (w : world) : world :=
  {| this := vm; inflight := inflight w; console := console w;
     nextTick := nextTick w; host := host w |}.

(** [axios.post (url, {message, sessionId})]: the request leaves. *)
Definition post (rq : request) (w : world) : world :=
  {| this := this w; inflight := inflight w ++ [rq];
     console := console w; nextTick := nextTick w; host := host w |}.

Definition console_error (e : error) (w : world) : world :=
  {| this := this w; inflight := inflight w;
     console := console w ++ [e]; nextTick := nextTick w; host := host w |}.

(** [this.$nextTick (...)]: one more scroll to the bottom is queued. *)
Definition scroll_on_nextTick (w : world) : world :=
  {| this := this w; inflight := inflight w;
     console := console w; nextTick := S (nextTick w); host := host w |}.

Definition fallback : Message :=
  {| role := "assistant";
     content := Str "Sorry, there was an error processing your message." |}.

(** [sendMessage] up to its [await]. *)
Definition sendMessage (w : world) : world :=
  let vm := this w in
  if negb (truthy (trim (newMessage vm))) || isLoading vm || negb (hasFlightData vm)
  then w
  else
    let userMessage := newMessage vm in
    let vm := set_newMessage "" vm in
    let vm := set_isLoading true vm in
    let vm := push {| role := "user"; content := Str userMessage |} vm in
    post {| url := "http://localhost:8001/chat";
            message := userMessage;
            session := sessionId vm |}
         (with_this vm w).

(** The [catch] block. *)
Definition catch (e : error) (w : world) : world :=
  let w := console_error e w in
  with_this (push fallback (this w)) w.

(** [sendMessage] from its [await] on, once the promise has settled: the
    rest of the [try] block, the [catch] block, the [finally] block. *)
Definition resume (r : Axios.settled) (w : world) : world :=
  let w :=
    match r with
    | Axios.Fulfilled response =>
        match Get (Axios.data response) "response" with
        | Normal c =>
            scroll_on_nextTick
              (with_this (push {| role := "assistant"; content := c |} (this w)) w)
        | Throw e => catch e w
        end
    | Axios.Rejected e => catch e w
    end in
  with_this (set_isLoading false (this w)) w.

(** ** The event loop *)

Inductive event :=
| Input (text : string)                      (* v-model on the text box *)
| Submit                                     (* click on Send, or Enter *)
| Settled (i : nat) (o : Axios.outcome)      (* the i-th request in flight settles *)
| FlightDataChanged (newData : FlightData)   (* the parent replaces the prop *)
| Mounted (now : Z).

Definition step (w : world) (ev : event) : world :=
  match ev with
  | Input text => with_this (set_newMessage text (this w)) w
  | Submit => sendMessage w
  | Settled i o =>
      match inflight w !! i with
      | Some _ =>
          resume (Axios.settle o)
            {| this := this w; inflight := delete i (inflight w);
               console := console w; nextTick := nextTick w; host := host w |}
      | None => w
      end
  | FlightDataChanged newData =>
      (* an error thrown by the watcher goes to the framework's error
         handler, which is not part of the component; the component is
         left as it was when the error was thrown *)
      with_this (handler (host w) newData (set_flightData newData (this w))).1 w
  | Mounted now => with_this (mounted now (this w)) w
  end.

Definition run (w : world) (evs : list event) : world := fold_left step evs w.

Definition settles (ev : event) : bool :=
  match ev with Settled _ _ => true | _ => false end.

(** The text box after the events [evs], none of which is a send that
    went through, when it held [text] before them. *)
Fixpoint typed_since (evs : list event) (text : string) : string :=
  match evs with
  | [] => text
  | Input text' :: evs' => typed_since evs' text'
  | _ :: evs' => typed_since evs' text
  end.

(** The component right after creation: [data ()], then the watcher, which
    is [immediate], runs once on the initial prop. *)
Definition created (e : engine) (props : FlightData) : world :=
  {| this := (handler e props (data props)).1;
     inflight := []; console := []; nextTick := 0; host := e |}.

(** ** methods: formatDuration *)

Definition formatDuration (seconds : number) : string :=
  let minutes := Math_floor (div seconds (dyadic 60 0)) in
  let remainingSeconds := Math_floor (rem seconds (dyadic 60 0)) in
  ToString minutes +:+ "m " +:+ ToString remainingSeconds +:+ "s".

(** ** template

    What the template shows of the component's state, without the message
    bubbles: the badges of the header (the [flight-info] block is there
    only with flight data, each badge only when its field is truthy; the
    badge text is given without the white space around it), whether the
    text box and the button are disabled, and the label of the button. *)

Record badges := {
  duration_badge : option string;
  altitude_badge : option string;
  battery_badge : option string
}.

Definition duration_span (vm : component) : option string :=
  match flightDuration vm with
  | Some d => if truthy_number d then Some ("Duration: " +:+ formatDuration d) else None
  | None => None
  end.

Definition text_span (label : string) (field : option string) : option string :=
  match field with
  | Some text => if truthy text then Some (label +:+ text) else None
  | None => None
  end.

Definition flight_info (vm : component) : option badges :=
  if hasFlightData vm then
    Some {| duration_badge := duration_span vm;
            altitude_badge := text_span "Altitude: " (altitudeRange vm);
            battery_badge := text_span "Battery: " (batteryRange vm) |}
  else None.

Definition disabled (vm : component) : bool := isLoading vm || negb (hasFlightData vm).

Definition button_label (vm : component) : string :=
  if isLoading vm then "Sending..." else "Send".

End ChatBot.

(* ===================================================================== *)
(** * Concrete inputs *)
(* ===================================================================== *)

Module Inputs.
Import Js ChatBot.

(** The ATT series [{alt: 1.0}, {alt: 5.25}, {}]. *)
Definition att_1_525 : list (gmap string number) :=
  [ {[ "alt" := dyadic 1 0 ]}; {[ "alt" := dyadic 21 (-2) ]}; ∅ ].

(** A GPS series of two records, 100 s apart, and one of a single record. *)
Definition gps_two : list (gmap string number) :=
  [ {[ "timestamp" := dyadic 50 0 ]}; {[ "timestamp" := dyadic 150 0 ]} ].

Definition gps_one : list (gmap string number) :=
  [ {[ "timestamp" := dyadic 50 0 ]} ].

(** A BAT series with voltages 12.5 and 11.0. *)
Definition bat_two : list (gmap string number) :=
  [ {[ "volt" := dyadic 25 (-1) ]}; {[ "volt" := dyadic 11 0 ]} ].

(** A first log with all three series, and a second one with only an ATT
    series whose records carry no [alt]. *)
Definition log_full : gmap string (list (gmap string number)) :=
  {[ "GPS" := gps_two; "ATT" := att_1_525; "BAT" := bat_two ]}.

Definition log_att_only : gmap string (list (gmap string number)) :=
  {[ "ATT" := [ {[ "roll" := dyadic 3 0 ]} ] ]}.

(** An engine that takes up to 125512 arguments, and an ATT series of
    150000 records, each with alt 1. *)
Definition node : engine := {| max_arguments := 125512; max_arguments_floor := eq_refl |}.

Definition att_long : list (gmap string number) :=
  replicate (N.to_nat 150000) {[ "alt" := dyadic 1 0 ]}.

Definition log_long : gmap string (list (gmap string number)) :=
  {[ "ATT" := att_long ]}.

(** A panel with a log loaded and a question typed. *)
Definition typed : world := step (created node log_full) (Input "max altitude?").

(** The same panel with that question sent and not yet answered. *)
Definition waiting : world := step typed Submit.

End Inputs.

(* ===================================================================== *)
(** * The assignments of updateFlightInfo, one field at a time *)
(* ===================================================================== *)

Module Fields.
Import Js ChatBot.

(** What [updateFlightInfo] leaves in [flightDuration], given the GPS entry
    of the flight data and the field's previous value; and the same for
    the two range badges, which are left alone when the spread call on
    their column throws.  [Summary.updateFlightInfo_fields] below shows
    that [updateFlightInfo] is these three assignments, the third one
    skipped when the second one threw. *)
Definition duration_of (gps : option (list (gmap string number))) (old : option number)
  : option number :=
  match gps with
  | Some (first :: rest) =>
      Some (sub (timestamp (List.last (first :: rest) first)) (timestamp first))
  | _ => old
  end.

Definition range_of (e : engine) (unit field : string)
    (series : option (list (gmap string number))) (old : option string) : option string :=
  match series with
  | Some s => match column field s with
              | [] => old
              | values => if fits e values then Some (range unit values) else old
              end
  | None => old
  end.

(** The column of the series has more entries than the engine takes as
    arguments. *)
Definition overflows (e : engine) (field : string)
    (series : option (list (gmap string number))) : bool :=
  match series with
  | Some s => match column field s with
              | [] => false
              | values => negb (fits e values)
              end
  | None => false
  end.

(** [updateFlightInfo] returns on this flight data. *)
Definition completes (e : engine) (fd : gmap string (list (gmap string number))) : bool :=
  negb (overflows e "alt" (fd !! "ATT")) && negb (overflows e "volt" (fd !! "BAT")).

End Fields.

(* ===================================================================== *)
(** * The shape of a conversation *)
(* ===================================================================== *)

Module Invariants.
Import Js ChatBot Fields.

(** What every world reached from [created] satisfies: the busy flag
    counts the requests in flight; a request in flight is the one for the
    last message of the list, a user message; neighbours in the list have
    different roles and, when nothing is in flight, the last message is
    the assistant's. *)
Definition conversation (w : world) : Prop :=
  length (inflight w) = (if isLoading (this w) then 1 else 0)
  ∧ Forall (λ rq, url rq = "http://localhost:8001/chat"
                  ∧ truthy (trim (message rq)) = true
                  ∧ last (messages (this w))
                    = Some {| role := "user"; content := Str (message rq) |})
           (inflight w)
  ∧ (∀ i m1 m2, messages (this w) !! i = Some m1 →
                messages (this w) !! S i = Some m2 → role m1 ≠ role m2)
  ∧ (isLoading (this w) = false →
     ∀ m, last (messages (this w)) = Some m → role m = "assistant").

(** What holds besides as long as the watcher has returned every time:
    the list starts with the greeting, and is empty only while no flight
    data has been loaded. *)
Definition greeted (w : world) : Prop :=
  (messages (this w) = [] ∨ messages (this w) !! 0 = Some greeting)
  ∧ (messages (this w) = [] → flightData (this w) = ∅).

(** The world before the watcher has run for the first time. *)
Definition blank (e : engine) : world :=
  {| this := data ∅; inflight := []; console := []; nextTick := 0; host := e |}.

(** The watcher's call of [updateFlightInfo] returns on this event. *)
Definition watcher_returns (e : engine) (ev : event) : bool :=
  match ev with
  | FlightDataChanged newData => completes e newData
  | _ => true
  end.

End Invariants.

(* ===================================================================== *)
(** * Properties of the built-ins *)
(* ===================================================================== *)

Module JsFacts.
Import Js.

(** A finite number minus itself is +0. *)
Lemma sub_diag (x : number) : isFinite x = true → sub x x = zero.
Proof.
  destruct x as [s|s| |s m e]; try discriminate; intros _.
  - by destruct s.
  - unfold sub, SFsub. by rewrite Z.sub_diag.
Qed.

(** A record without the field reads as [undefined]: the difference is NaN. *)
Lemma sub_undefined_l (y : option number) : sub (ToNumber None) (ToNumber y) = NaN.
Proof. by destruct y as [[]|]. Qed.

End JsFacts.

(* ===================================================================== *)
(** * updateFlightInfo *)
(* ===================================================================== *)

Module Summary.
Import Js ChatBot Fields.

Lemma hasFlightData_size (vm : component) :
  hasFlightData vm = bool_decide (flightData vm ≠ ∅).
Proof.
  unfold hasFlightData, Object_keys.
  rewrite length_fmap, length_map_to_list.
  case_bool_decide as H.
  - apply Nat.ltb_lt. apply map_size_non_empty_iff in H. lia.
  - apply Nat.ltb_ge. apply map_size_empty_iff in H. lia.
Qed.

Lemma hasFlightData_empty (vm : component) :
  hasFlightData vm = false ↔ flightData vm = ∅.
Proof.
  rewrite hasFlightData_size. split.
  - intros H. apply bool_decide_eq_false in H. by apply dec_stable in H.
  - intros ->. by apply bool_decide_eq_false; intros [].
Qed.

Lemma hasFlightData_lookup (vm : component) (k : string) series :
  flightData vm !! k = Some series → hasFlightData vm = true.
Proof.
  intros Hk. destruct (hasFlightData vm) eqn:E; [done|].
  apply hasFlightData_empty in E. rewrite E in Hk. by rewrite lookup_empty in Hk.
Qed.

(** What the source's [gpsData[gpsData.length - 1]] is for [List.last]. *)
Lemma last_index {A} (l : list A) (d x : A) :
  l !! (length l - 1) = Some x → List.last l d = x.
Proof.
  induction l as [|a [|b l] IH]; simpl; intros H.
  - done.
  - by injection H.
  - apply IH. simpl. by rewrite Nat.sub_0_r.
Qed.

(** No record defines the field: nothing is left after the filter. *)
Lemma column_nil (field : string) (series : list (gmap string number)) :
  Forall (λ msg : gmap string number, msg !! field = None) series →
  column field series = [].
Proof.
  unfold column. induction 1 as [|msg series Hmsg _ IH]; simpl; [done|].
  by rewrite Hmsg.
Qed.

(** Records that lack the field do not reach min and max. *)
Lemma column_skip (field : string) (l1 l2 : list (gmap string number)) msg :
  msg !! field = None →
  column field (l1 ++ msg :: l2) = column field (l1 ++ l2).
Proof.
  intros Hmsg. unfold column.
  rewrite !List.map_app, !List.filter_app. simpl. by rewrite Hmsg.
Qed.

(** Three values are within the argument limit of every engine. *)
Lemma fits_few {A} (e : engine) (args : list A) :
  (N.of_nat (length args) <= 65535)%N → fits e args = true.
Proof.
  intros Hlen. unfold fits. apply N.leb_le.
  pose proof (max_arguments_floor e) as Hfloor. apply N.leb_le in Hfloor. lia.
Qed.

Lemma badge_range (unit : string) (values : list (option number)) :
  badge unit (Math_min (map ToNumber values)) (Math_max (map ToNumber values))
  = range unit values.
Proof. done. Qed.

Ltac run_action :=
  unfold mbind, action_bind, mret, action_ret, eval, read, assign, spread; simpl.

Lemma updateFlightInfo_fields (e : engine) (vm : component) :
  hasFlightData vm = true →
  (updateFlightInfo e vm).1 =
    set_batteryRange
      (if overflows e "alt" (flightData vm !! "ATT") then batteryRange vm
       else range_of e "V" "volt" (flightData vm !! "BAT") (batteryRange vm))
      (set_altitudeRange (range_of e "m" "alt" (flightData vm !! "ATT") (altitudeRange vm))
         (set_flightDuration (duration_of (flightData vm !! "GPS") (flightDuration vm)) vm)).
Proof.
  intros Hfd. unfold updateFlightInfo. run_action. rewrite Hfd. simpl.
  destruct vm as [fd ms nm ld sid dur alt bat]. simpl.
  destruct (fd !! "GPS") as [[|first gps]|]; simpl;
    (destruct (fd !! "ATT") as [[|a att]|]; simpl;
       [| destruct (column "alt" (a :: att)) as [|v values]; simpl;
          [|destruct (fits e (v :: values)); simpl] |];
       (destruct (fd !! "BAT") as [[|b bs]|]; simpl;
          [| destruct (column "volt" (b :: bs)) as [|v' values']; simpl;
             [|destruct (fits e (v' :: values')); simpl] |]; reflexivity)).
Qed.

(** [updateFlightInfo] throws exactly when there is flight data and one of
    the two columns is too long for a spread call. *)
Lemma updateFlightInfo_completion (e : engine) (vm : component) :
  (updateFlightInfo e vm).2 =
    if hasFlightData vm && negb (completes e (flightData vm))
    then Throw (RangeError "Maximum call stack size exceeded")
    else Normal tt.
Proof.
  unfold updateFlightInfo, completes. run_action.
  destruct (hasFlightData vm); simpl; [|done].
  destruct vm as [fd ms nm ld sid dur alt bat]. simpl.
  destruct (fd !! "GPS") as [[|first gps]|]; simpl;
    (destruct (fd !! "ATT") as [[|a att]|]; simpl;
       [| destruct (column "alt" (a :: att)) as [|v values]; simpl;
          [|destruct (fits e (v :: values)); simpl] |];
       try reflexivity;
       (destruct (fd !! "BAT") as [[|b bs]|]; simpl;
          [| destruct (column "volt" (b :: bs)) as [|v' values']; simpl;
             [|destruct (fits e (v' :: values')); simpl] |]; reflexivity)).
Qed.

Lemma overflows_fits (e : engine) (field : string)
    (series : option (list (gmap string number))) :
  (∀ s, series = Some s → fits e (column field s) = true) →
  overflows e field series = false.
Proof.
  intros H. unfold overflows. destruct series as [s|]; [|done].
  specialize (H s eq_refl). destruct (column field s); [done|]. by rewrite H.
Qed.

Lemma duration_of_index (gpsData : list (gmap string number)) first final old :
  gpsData !! 0 = Some first →
  gpsData !! (length gpsData - 1) = Some final →
  duration_of (Some gpsData) old = Some (sub (timestamp final) (timestamp first)).
Proof.
  destruct gpsData as [|r rest]; [done|].
  intros [= ->] Hfinal. unfold duration_of.
  by rewrite (last_index (first :: rest) first final Hfinal).
Qed.

Lemma updateFlightInfo_nodata (e : engine) (vm : component) :
  hasFlightData vm = false → updateFlightInfo e vm = (vm, Normal tt).
Proof. intros H. unfold updateFlightInfo. run_action. by rewrite H. Qed.

(** [updateFlightInfo] touches nothing but the three summary fields. *)
Lemma updateFlightInfo_frame (e : engine) (vm : component) :
  flightData (updateFlightInfo e vm).1 = flightData vm
  ∧ messages (updateFlightInfo e vm).1 = messages vm
  ∧ newMessage (updateFlightInfo e vm).1 = newMessage vm
  ∧ isLoading (updateFlightInfo e vm).1 = isLoading vm
  ∧ sessionId (updateFlightInfo e vm).1 = sessionId vm.
Proof.
  destruct (hasFlightData vm) eqn:E.
  - by rewrite updateFlightInfo_fields.
  - by rewrite updateFlightInfo_nodata.
Qed.

(** The watcher: the component it leaves behind. *)
Lemma handler_state (e : engine) (newData : gmap string (list (gmap string number)))
    (vm : component) :
  (handler e newData vm).1 =
    if (0 <? length (Object_keys newData))%nat then
      let vm' := (updateFlightInfo e vm).1 in
      if hasFlightData vm && negb (completes e (flightData vm)) then vm'
      else if (length (messages vm') =? 0)%nat then push greeting vm' else vm'
    else vm.
Proof.
  unfold handler. destruct (0 <? _)%nat; [|done].
  pose proof (updateFlightInfo_completion e vm) as Hc.
  unfold mbind, action_bind at 1.
  destruct (updateFlightInfo e vm) as [vm' c]. simpl in *. subst c.
  destruct (hasFlightData vm && _); [done|].
  run_action. by destruct (_ =? _)%nat.
Qed.

End Summary.

(* ===================================================================== *)
(** * The summary badges *)
(* ===================================================================== *)

Module Badges.
Import Js ChatBot Fields Inputs Summary.

(** The watcher changes the summary fields only through
    [updateFlightInfo]: the greeting goes to the message list. *)
Lemma handler_summary (e : engine) (newData : gmap string (list (gmap string number)))
    (vm : component) :
  flightData vm = newData →
  flightDuration (handler e newData vm).1
    = (if hasFlightData vm then duration_of (newData !! "GPS") (flightDuration vm)
       else flightDuration vm)
  ∧ altitudeRange (handler e newData vm).1
    = (if hasFlightData vm then range_of e "m" "alt" (newData !! "ATT") (altitudeRange vm)
       else altitudeRange vm)
  ∧ batteryRange (handler e newData vm).1
    = (if hasFlightData vm
       then if overflows e "alt" (newData !! "ATT") then batteryRange vm
            else range_of e "V" "volt" (newData !! "BAT") (batteryRange vm)
       else batteryRange vm).
Proof.
  intros <-. rewrite handler_state. fold (hasFlightData vm).
  destruct (hasFlightData vm) eqn:E; [|done]. cbv zeta.
  rewrite updateFlightInfo_fields by done.
  destruct (_ && _); [done|]. by destruct (_ =? _)%nat.
Qed.

Lemma column_att_1_525 :
  column "alt" att_1_525 = [Some (dyadic 1 0); Some (dyadic 21 (-2))].
Proof. by vm_compute. Qed.

(** C1, as the code has it: for a flightData whose ATT series is the three
    records [{alt:1.0},{alt:5.25},{}], whatever its other series, whatever
    the component held before and whatever the engine, updateFlightInfo
    sets the altitude range to the string "1.0m - 5.3m" (toFixed(1) keeps
    one decimal and rounds 5.25 up); the record lacking alt does not reach
    min and max. *)
Theorem C1_altitude_range_one_decimal
    (e : engine) (vm : component) (others : gmap string (list (gmap string number))) :
  altitudeRange (updateFlightInfo e (set_flightData (<["ATT" := att_1_525]> others) vm)).1
    = Some "1.0m - 5.3m"
  ∧ column "alt" att_1_525 = [Some (dyadic 1 0); Some (dyadic 21 (-2))].
Proof.
  split; [|exact column_att_1_525].
  rewrite updateFlightInfo_fields.
  - simpl. rewrite lookup_insert_eq. unfold range_of.
    rewrite column_att_1_525, fits_few by (simpl; lia). by vm_compute.
  - apply (hasFlightData_lookup _ "ATT" att_1_525). simpl. apply lookup_insert_eq.
Qed.

(** C1 as stated fails: the altitude range of that input is not the string
    "1.0m - 5.25m". *)
Lemma C1_counterexample :
  altitudeRange (updateFlightInfo node (data {[ "ATT" := att_1_525 ]})).1
    ≠ Some "1.0m - 5.25m".
Proof. vm_compute. intros [=]. Qed.

(** C3: with a non-empty GPS series, updateFlightInfo sets flightDuration
    to the timestamp of the record at index length - 1 minus the timestamp
    of the record at index 0 (the Number subtraction of the source); for a
    single record carrying a finite timestamp that is 0; and a component
    created on flight data without a non-empty GPS series has
    flightDuration unset. *)
Theorem C3_flight_duration :
  (∀ (e : engine) (vm : component) (gpsData : list (gmap string number)) first final,
     flightData vm !! "GPS" = Some gpsData →
     gpsData !! 0 = Some first →
     gpsData !! (length gpsData - 1) = Some final →
     flightDuration (updateFlightInfo e vm).1
       = Some (sub (timestamp final) (timestamp first)))
  ∧ (∀ (e : engine) (vm : component) (msg : gmap string number) t,
       flightData vm !! "GPS" = Some [msg] →
       msg !! "timestamp" = Some t → isFinite t = true →
       flightDuration (updateFlightInfo e vm).1 = Some zero)
  ∧ (∀ (e : engine) (props : gmap string (list (gmap string number))),
       (∀ gpsData, props !! "GPS" = Some gpsData → gpsData = []) →
       flightDuration (updateFlightInfo e (data props)).1 = None
       ∧ flightDuration (this (created e props)) = None).
Proof.
  assert (Hgen : ∀ (e : engine) (vm : component)
                   (gpsData : list (gmap string number)) first final,
     flightData vm !! "GPS" = Some gpsData →
     gpsData !! 0 = Some first →
     gpsData !! (length gpsData - 1) = Some final →
     flightDuration (updateFlightInfo e vm).1
       = Some (sub (timestamp final) (timestamp first))).
  { intros e vm gpsData first final Hgps Hfirst Hfinal.
    rewrite updateFlightInfo_fields by eauto using hasFlightData_lookup.
    simpl. rewrite Hgps. by apply duration_of_index. }
  split; [exact Hgen|split].
  - intros e vm msg t Hgps Ht Hfin.
    rewrite (Hgen e vm [msg] msg msg Hgps eq_refl eq_refl).
    unfold timestamp. rewrite Ht. simpl.
    by rewrite JsFacts.sub_diag.
  - intros e props Hnone.
    assert (Hd : duration_of (props !! "GPS") None = None).
    { destruct (props !! "GPS") as [gpsData|] eqn:E; [|done].
      by rewrite (Hnone gpsData eq_refl). }
    split.
    + destruct (hasFlightData (data props)) eqn:E.
      * by rewrite updateFlightInfo_fields.
      * by rewrite updateFlightInfo_nodata.
    + unfold created. simpl.
      destruct (handler_summary e props (data props) eq_refl) as (-> & _).
      by destruct (hasFlightData _).
Qed.

Lemma C3_witness :
  flightDuration (updateFlightInfo node (data log_full)).1 = Some (dyadic 100 0)
  ∧ flightDuration (updateFlightInfo node (data {[ "GPS" := gps_one ]})).1 = Some zero
  ∧ flightDuration (this (created node log_att_only)) = None.
Proof.
  split; [|split].
  - exact (proj1 C3_flight_duration node (data log_full) gps_two
             {[ "timestamp" := dyadic 50 0 ]} {[ "timestamp" := dyadic 150 0 ]}
             eq_refl eq_refl eq_refl).
  - exact (proj1 (proj2 C3_flight_duration) node (data {[ "GPS" := gps_one ]})
             {[ "timestamp" := dyadic 50 0 ]} (dyadic 50 0) eq_refl eq_refl eq_refl).
  - apply (proj2 (proj2 C3_flight_duration) node log_att_only).
    intros gpsData H. vm_compute in H. discriminate.
Defined.

(** C9: with a non-empty ATT series in which no record defines alt,
    updateFlightInfo leaves altitudeRange as it was, and likewise
    batteryRange for a non-empty BAT series in which no record defines
    volt; whenever updateFlightInfo does write a range, min and max were
    taken over at least one value. *)
Theorem C9_range_needs_a_value (e : engine) (vm : component) :
  (∀ att : list (gmap string number),
     flightData vm !! "ATT" = Some att → att ≠ [] →
     Forall (λ msg : gmap string number, msg !! "alt" = None) att →
     altitudeRange (updateFlightInfo e vm).1 = altitudeRange vm)
  ∧ (∀ bat : list (gmap string number),
       flightData vm !! "BAT" = Some bat → bat ≠ [] →
       Forall (λ msg : gmap string number, msg !! "volt" = None) bat →
       batteryRange (updateFlightInfo e vm).1 = batteryRange vm)
  ∧ (altitudeRange (updateFlightInfo e vm).1 = altitudeRange vm
     ∨ ∃ v values,
         altitudeRange (updateFlightInfo e vm).1 = Some (range "m" (v :: values)))
  ∧ (batteryRange (updateFlightInfo e vm).1 = batteryRange vm
     ∨ ∃ v values,
         batteryRange (updateFlightInfo e vm).1 = Some (range "V" (v :: values))).
Proof.
  destruct (hasFlightData vm) eqn:E.
  2:{ rewrite updateFlightInfo_nodata by done. auto. }
  rewrite updateFlightInfo_fields by done. simpl.
  split; [|split; [|split]].
  - intros att -> _ Hall. simpl. by rewrite column_nil.
  - intros bat Hbat _ Hall. destruct (overflows _ _ _); [done|].
    rewrite Hbat. simpl. by rewrite column_nil.
  - unfold range_of. destruct (flightData vm !! "ATT") as [att|]; [|by left].
    destruct (column "alt" att) as [|v values]; [by left|].
    destruct (fits e (v :: values)); [right; eauto|by left].
  - destruct (overflows _ _ _); [by left|].
    unfold range_of. destruct (flightData vm !! "BAT") as [bat|]; [|by left].
    destruct (column "volt" bat) as [|v values]; [by left|].
    destruct (fits e (v :: values)); [right; eauto|by left].
Qed.

Lemma C9_witness :
  altitudeRange
    (updateFlightInfo node (set_flightData log_att_only (this (created node log_full)))).1
    = Some "1.0m - 5.3m".
Proof.
  refine (eq_trans
    (proj1 (C9_range_needs_a_value node
              (set_flightData log_att_only (this (created node log_full))))
       [ {[ "roll" := dyadic 3 0 ]} ] eq_refl _ _) _).
  - discriminate.
  - repeat constructor.
  - vm_compute. reflexivity.
Defined.

(** C2 as stated fails: the duration computed from a first log with a GPS
    series is still there after the flight data changes to a log without
    any GPS series; it is not what a computation from the new log alone
    gives. *)
Lemma C2_counterexample :
  log_att_only !! "GPS" = None
  ∧ flightDuration (this (step (created node log_full) (FlightDataChanged log_att_only)))
      = flightDuration (this (created node log_full))
  ∧ flightDuration (this (step (created node log_full) (FlightDataChanged log_att_only)))
      ≠ flightDuration (this (created node log_att_only)).
Proof. vm_compute. repeat split; discriminate. Qed.

(** C2, as the code has it: when the flightData property changes to a
    non-empty mapping, the duration is recomputed from the new mapping
    when its GPS series has a record, and each range when its series has
    a record defining the field and the Math.min and Math.max calls made
    up to there take their column (for the altitude range the alt column,
    for the battery range the alt column and the volt column, each within
    the engine's argument limit); a summary field whose series supplies no
    value keeps the value it had; a change to the empty mapping leaves all
    three as they were.  What becomes of a range whose column is too long
    for the call is left open here. *)
Theorem C2_summary_fields_on_change
    (w : world) (newData : gmap string (list (gmap string number))) :
  let w' := step w (FlightDataChanged newData) in
  (newData = ∅ →
     flightDuration (this w') = flightDuration (this w)
     ∧ altitudeRange (this w') = altitudeRange (this w)
     ∧ batteryRange (this w') = batteryRange (this w))
  ∧ (∀ gpsData first final,
       newData !! "GPS" = Some gpsData →
       gpsData !! 0 = Some first → gpsData !! (length gpsData - 1) = Some final →
       flightDuration (this w') = Some (sub (timestamp final) (timestamp first)))
  ∧ ((∀ gpsData, newData !! "GPS" = Some gpsData → gpsData = []) →
       flightDuration (this w') = flightDuration (this w))
  ∧ (∀ att v values,
       newData !! "ATT" = Some att → column "alt" att = v :: values →
       fits (host w) (v :: values) = true →
       altitudeRange (this w') = Some (range "m" (v :: values)))
  ∧ ((∀ att, newData !! "ATT" = Some att → column "alt" att = []) →
       altitudeRange (this w') = altitudeRange (this w))
  ∧ (∀ bat v values,
       newData !! "BAT" = Some bat → column "volt" bat = v :: values →
       fits (host w) (v :: values) = true →
       (∀ att, newData !! "ATT" = Some att → fits (host w) (column "alt" att) = true) →
       batteryRange (this w') = Some (range "V" (v :: values)))
  ∧ ((∀ bat, newData !! "BAT" = Some bat → column "volt" bat = []) →
       batteryRange (this w') = batteryRange (this w)).
Proof.
  simpl.
  destruct (handler_summary (host w) newData (set_flightData newData (this w)) eq_refl)
    as (Hd & Ha & Hb).
  rewrite Hd, Ha, Hb. clear Hd Ha Hb. simpl.
  split.
  { intros ->.
    replace (hasFlightData _) with false; [done|].
    symmetry. by apply hasFlightData_empty. }
  split; [|split; [|split; [|split; [|split]]]].
  - intros gpsData first final Hgps Hfirst Hfinal.
    erewrite hasFlightData_lookup by exact Hgps.
    rewrite Hgps. by apply duration_of_index.
  - intros Hnone. destruct (hasFlightData _); [|done].
    destruct (newData !! "GPS") as [gpsData|]; [|done].
    by rewrite (Hnone gpsData eq_refl).
  - intros att v values Hatt Hcol Hfits.
    erewrite hasFlightData_lookup by exact Hatt.
    rewrite Hatt. simpl. by rewrite Hcol, Hfits.
  - intros Hnone. destruct (hasFlightData _); [|done].
    destruct (newData !! "ATT") as [att|]; [|done].
    simpl. by rewrite (Hnone att eq_refl).
  - intros bat v values Hbat Hcol Hfits Hatt.
    erewrite hasFlightData_lookup by exact Hbat.
    replace (overflows (host w) "alt" (newData !! "ATT")) with false.
    + rewrite Hbat. simpl. by rewrite Hcol, Hfits.
    + unfold overflows. destruct (newData !! "ATT") as [att|]; [|done].
      specialize (Hatt att eq_refl).
      destruct (column "alt" att); [done|]. by rewrite Hatt.
  - intros Hnone. destruct (hasFlightData _); [|done].
    destruct (overflows _ _ _); [done|].
    destruct (newData !! "BAT") as [bat|]; [|done].
    simpl. by rewrite (Hnone bat eq_refl).
Qed.

Lemma C2_witness :
  flightDuration (this (step (created node log_full) (FlightDataChanged log_att_only)))
    = flightDuration (this (created node log_full))
  ∧ flightDuration (this (step (created node log_att_only) (FlightDataChanged log_full)))
    = Some (dyadic 100 0)
  ∧ batteryRange (this (step (created node log_att_only) (FlightDataChanged log_full)))
    = Some "11.0V - 12.5V".
Proof.
  split; [|split].
  - apply (proj1 (proj2 (proj2
             (C2_summary_fields_on_change (created node log_full) log_att_only)))).
    intros gpsData H. vm_compute in H. discriminate.
  - exact (proj1 (proj2
             (C2_summary_fields_on_change (created node log_att_only) log_full))
             gps_two {[ "timestamp" := dyadic 50 0 ]} {[ "timestamp" := dyadic 150 0 ]}
             eq_refl eq_refl eq_refl).
  - refine (eq_trans (proj1 (proj2 (proj2 (proj2 (proj2 (proj2
             (C2_summary_fields_on_change (created node log_att_only) log_full))))))
             bat_two (Some (dyadic 25 (-1))) [Some (dyadic 11 0)]
             eq_refl eq_refl eq_refl _) _).
    + intros att Hatt. vm_compute in Hatt. injection Hatt as <-. reflexivity.
    + vm_compute. reflexivity.
Defined.

End Badges.

(* ===================================================================== *)
(** * trim on blank strings *)
(* ===================================================================== *)

Module Blank.
Import Js.

Lemma length_append (s1 s2 : string) :
  String.length (s1 +:+ s2) = String.length s1 + String.length s2.
Proof. induction s1 as [|c s1 IH]; simpl; [done|by rewrite IH]. Qed.

Lemma strip_any_whitespace (p rest : string) :
  p ∈ WhiteSpace_LineTerminator →
  strip_any WhiteSpace_LineTerminator (p +:+ rest) = Some rest.
Proof.
  unfold WhiteSpace_LineTerminator. simpl map.
  rewrite !elem_of_cons, elem_of_nil.
  intros H. repeat (destruct H as [->|H]; [reflexivity|]). destruct H.
Qed.

Lemma whitespace_length (p : string) :
  p ∈ WhiteSpace_LineTerminator → 1 ≤ String.length p.
Proof.
  unfold WhiteSpace_LineTerminator. simpl map.
  rewrite !elem_of_cons, elem_of_nil.
  intros H. repeat (destruct H as [->|H]; [simpl; lia|]). destruct H.
Qed.

Lemma trim_loop_blank (s : string) :
  whitespace_only s →
  ∀ fuel, String.length s ≤ fuel → trim_loop WhiteSpace_LineTerminator fuel s = "".
Proof.
  induction 1 as [|p s Hp Hs IH]; intros fuel Hfuel.
  - by destruct fuel.
  - rewrite length_append in Hfuel.
    pose proof (whitespace_length p Hp).
    destruct fuel as [|fuel]; [lia|].
    cbn [trim_loop]. rewrite strip_any_whitespace by done.
    apply IH. lia.
Qed.

(** On an empty or whitespace-only string [trim] gives the empty string,
    which is falsy. *)
Lemma trim_blank (s : string) : whitespace_only s → trim s = "".
Proof.
  intros Hs. unfold trim, trimStart.
  by rewrite (trim_loop_blank s Hs).
Qed.

End Blank.

(* ===================================================================== *)
(** * sendMessage, the watcher and the event loop *)
(* ===================================================================== *)

Module Chat.
Import Js ChatBot Inputs Fields Summary.

#[local] Open Scope nat_scope.

(** ** One operation at a time *)

Lemma sendMessage_rejected (w : world) :
  truthy (trim (newMessage (this w))) = false
  ∨ isLoading (this w) = true
  ∨ hasFlightData (this w) = false →
  sendMessage w = w.
Proof.
  unfold sendMessage.
  intros [H|[H|H]]; rewrite H; simpl; [done| |];
    by destruct (truthy _), (isLoading _).
Qed.

Lemma sendMessage_accepted (w : world) :
  truthy (trim (newMessage (this w))) = true →
  isLoading (this w) = false →
  hasFlightData (this w) = true →
  sendMessage w =
    post {| url := "http://localhost:8001/chat";
            message := newMessage (this w);
            session := sessionId (this w) |}
      (with_this
         (push {| role := "user"; content := Str (newMessage (this w)) |}
            (set_isLoading true (set_newMessage "" (this w)))) w).
Proof. intros H1 H2 H3. unfold sendMessage. by rewrite H1, H2, H3. Qed.

(** Either the guard turns the call away or all three tests passed. *)
Lemma sendMessage_cases (w : world) :
  sendMessage w = w
  ∨ (truthy (trim (newMessage (this w))) = true
     ∧ isLoading (this w) = false
     ∧ hasFlightData (this w) = true).
Proof.
  destruct (truthy (trim (newMessage (this w)))) eqn:H1;
    [|left; apply sendMessage_rejected; auto].
  destruct (isLoading (this w)) eqn:H2;
    [left; apply sendMessage_rejected; auto|].
  destruct (hasFlightData (this w)) eqn:H3;
    [by right|left; apply sendMessage_rejected; auto].
Qed.

Lemma resume_isLoading (r : Axios.settled) (w : world) :
  isLoading (this (resume r w)) = false.
Proof. done. Qed.

Lemma resume_newMessage (r : Axios.settled) (w : world) :
  newMessage (this (resume r w)) = newMessage (this w).
Proof.
  unfold resume. destruct r as [response|e]; [|done].
  by destruct (Get _ _).
Qed.

Lemma resume_inflight (r : Axios.settled) (w : world) :
  inflight (resume r w) = inflight w.
Proof.
  unfold resume. destruct r as [response|e]; [|done].
  by destruct (Get _ _).
Qed.

Lemma resume_rejected (e : error) (w : world) :
  messages (this (resume (Axios.Rejected e) w)) = messages (this w) ++ [fallback].
Proof. done. Qed.

Lemma resume_fulfilled (response : Axios.response) (w : world) :
  messages (this (resume (Axios.Fulfilled response) w)) =
    messages (this w) ++
      [match Get (Axios.data response) "response" with
       | Normal c => {| role := "assistant"; content := c |}
       | Throw _ => fallback
       end].
Proof. unfold resume. by destruct (Get _ _). Qed.

(** Whatever the promise settles to, one assistant message is appended. *)
Lemma resume_messages (r : Axios.settled) (w : world) :
  ∃ c, messages (this (resume r w))
       = messages (this w) ++ [{| role := "assistant"; content := c |}].
Proof.
  destruct r as [response|e].
  - rewrite resume_fulfilled. destruct (Get _ _); eexists; reflexivity.
  - rewrite resume_rejected. eexists; reflexivity.
Qed.

Lemma settle_rejects (o : Axios.outcome) :
  Axios.rejects o → ∃ e, Axios.settle o = Axios.Rejected e.
Proof.
  destruct o as [| |status body]; simpl; [eauto..|].
  intros ->. eauto.
Qed.

Lemma settle_fulfils (status : Z) (body : value) :
  Axios.validateStatus status = true →
  Axios.settle (Axios.Response status body)
    = Axios.Fulfilled {| Axios.data := body; Axios.status := status |}.
Proof. simpl. by intros ->. Qed.

Lemma handler_frame (e : engine) (newData : gmap string (list (gmap string number)))
    (vm : component) :
  newMessage (handler e newData vm).1 = newMessage vm
  ∧ isLoading (handler e newData vm).1 = isLoading vm.
Proof.
  rewrite handler_state.
  destruct (updateFlightInfo_frame e vm) as (_ & _ & Hn & Hl & _).
  destruct (0 <? _); [|done]. cbv zeta.
  destruct (_ && _); [done|]. by destruct (_ =? _).
Qed.

(** The greeting is pushed when the new mapping has keys, the call of
    [updateFlightInfo] returned and the list is empty. *)
Lemma handler_messages (e : engine) (newData : gmap string (list (gmap string number)))
    (vm : component) :
  messages (handler e newData vm).1 =
    if (0 <? length (Object_keys newData))
       && negb (hasFlightData vm && negb (completes e (flightData vm)))
       && (length (messages vm) =? 0)
    then messages vm ++ [greeting] else messages vm.
Proof.
  rewrite handler_state.
  destruct (updateFlightInfo_frame e vm) as (_ & Hm & _).
  destruct (0 <? _); [|done]. cbv zeta.
  destruct (_ && _); [done|]. simpl. rewrite Hm.
  destruct (_ =? _); simpl; [by rewrite Hm|done].
Qed.

Lemma Object_keys_empty (newData : gmap string (list (gmap string number))) :
  (0 <? length (Object_keys newData)) = false ↔ newData = ∅.
Proof. apply (hasFlightData_empty (data newData)). Qed.

(** ** The busy flag counts the requests in flight *)

Lemma step_busy (w : world) (ev : event) :
  length (inflight w) = (if isLoading (this w) then 1 else 0) →
  length (inflight (step w ev)) = (if isLoading (this (step w ev)) then 1 else 0).
Proof.
  intros Hinv. destruct ev as [text| |i o|newData|now]; simpl.
  - done.
  - destruct (sendMessage_cases w) as [->|(H1 & H2 & H3)]; [done|].
    rewrite sendMessage_accepted by done. simpl.
    rewrite length_app, Hinv, H2. done.
  - destruct (inflight w !! i) eqn:E; [|done].
    rewrite resume_isLoading, resume_inflight. simpl.
    rewrite length_delete by eauto.
    destruct (isLoading (this w)); [lia|].
    apply lookup_lt_Some in E. lia.
  - by destruct (handler_frame (host w) newData (set_flightData newData (this w))) as (_ & ->).
  - done.
Qed.

Lemma run_busy (evs : list event) (w : world) :
  length (inflight w) = (if isLoading (this w) then 1 else 0) →
  length (inflight (run w evs)) = (if isLoading (this (run w evs)) then 1 else 0).
Proof.
  revert w. induction evs as [|ev evs IH]; intros w Hinv; [done|].
  apply IH, step_busy, Hinv.
Qed.

Lemma created_busy (e : engine) (props : gmap string (list (gmap string number))) :
  length (inflight (created e props))
    = (if isLoading (this (created e props)) then 1 else 0).
Proof.
  unfold created. simpl.
  by destruct (handler_frame e props (data props)) as (_ & ->).
Qed.

(** C4: sendMessage changes nothing (message list, text box, requests in
    flight, busy flag, everything else) when the text box is empty or
    holds white space only, when the busy flag is set, or when flightData
    is the empty mapping; so from creation on, whatever happens, at most
    one request is in flight, and a send attempted while one is in flight
    leaves the world as it was. *)
Theorem C4_send_guard :
  (∀ w : world,
     whitespace_only (newMessage (this w))
     ∨ isLoading (this w) = true
     ∨ flightData (this w) = ∅ →
     sendMessage w = w)
  ∧ (∀ e props evs, length (inflight (run (created e props) evs)) ≤ 1)
  ∧ (∀ e props evs,
       inflight (run (created e props) evs) ≠ [] →
       step (run (created e props) evs) Submit = run (created e props) evs).
Proof.
  split; [|split].
  - intros w [H|[H|H]]; apply sendMessage_rejected.
    + left. by rewrite Blank.trim_blank.
    + auto.
    + right; right. by apply hasFlightData_empty.
  - intros e props evs.
    rewrite (run_busy evs (created e props) (created_busy e props)).
    destruct (isLoading _); lia.
  - intros e props evs Hne. simpl.
    apply sendMessage_rejected. right; left.
    pose proof (run_busy evs (created e props) (created_busy e props)) as Hinv.
    destruct (isLoading _); [done|].
    by apply length_zero_iff_nil in Hinv.
Qed.

Lemma C4_witness :
  sendMessage (step (created node log_full) (Input "   ")) = step (created node log_full) (Input "   ")
  ∧ sendMessage waiting = waiting
  ∧ sendMessage (step (created node ∅) (Input "hello")) = step (created node ∅) (Input "hello")
  ∧ step (run (created node log_full) [Input "max altitude?"; Submit]) Submit
    = run (created node log_full) [Input "max altitude?"; Submit].
Proof.
  split; [|split; [|split]].
  - apply (proj1 C4_send_guard). left.
    apply (blank_more " " "  "); [by vm_compute; set_solver|].
    apply (blank_more " " " "); [by vm_compute; set_solver|].
    apply (blank_more " " ""); [by vm_compute; set_solver|].
    constructor.
  - apply (proj1 C4_send_guard). right; left. reflexivity.
  - apply (proj1 C4_send_guard). right; right. reflexivity.
  - apply (proj2 (proj2 C4_send_guard) node log_full [Input "max altitude?"; Submit]).
    vm_compute. discriminate.
Defined.

(** ** When the promise settles *)

(** C5: when the request that settles was rejected (timeout, connection
    refused, a status outside 200..299), the message list grows by exactly
    one message, the assistant's fixed apology; and whatever the outcome,
    rejected or fulfilled, the busy flag is false afterwards. *)
Theorem C5_failure_fallback (w : world) (i : nat) (rq : request) (o : Axios.outcome) :
  inflight w !! i = Some rq →
  (Axios.rejects o →
     messages (this (step w (Settled i o))) =
       messages (this w) ++
         [{| role := "assistant";
             content := Str "Sorry, there was an error processing your message." |}])
  ∧ isLoading (this (step w (Settled i o))) = false.
Proof.
  intros Hrq. simpl. rewrite Hrq. split.
  - intros Hrej. destruct (settle_rejects o Hrej) as [e ->].
    by rewrite resume_rejected.
  - apply resume_isLoading.
Qed.

Lemma C5_witness :
  messages (this (step waiting (Settled 0 (Axios.Response 500 Null)))) =
    messages (this waiting) ++
      [{| role := "assistant";
          content := Str "Sorry, there was an error processing your message." |}]
  ∧ isLoading (this (step waiting (Settled 0 Axios.Timeout))) = false.
Proof.
  split.
  - exact (proj1 (C5_failure_fallback waiting 0
                    {| url := "http://localhost:8001/chat";
                       message := "max altitude?"; session := None |}
                    (Axios.Response 500 Null) eq_refl) eq_refl).
  - exact (proj2 (C5_failure_fallback waiting 0
                    {| url := "http://localhost:8001/chat";
                       message := "max altitude?"; session := None |}
                    Axios.Timeout eq_refl)).
Defined.

(** C6 as stated fails: a 200 response whose body is the object {} makes
    sendMessage append an assistant message whose content is undefined,
    not the apology. *)
Lemma C6_counterexample :
  messages (this (step waiting (Settled 0 (Axios.Response 200 (Obj []))))) =
    messages (this waiting) ++ [{| role := "assistant"; content := Undefined |}]
  ∧ messages (this (step waiting (Settled 0 (Axios.Response 200 (Obj []))))) ≠
    messages (this waiting) ++ [fallback].
Proof. vm_compute. split; [reflexivity|discriminate]. Qed.

(** C6, as the code has it: every cause that rejects the request (timeout,
    connection refused, a status outside 200..299) and a 2xx response
    whose body cannot be read at all (null) result in the same single
    assistant message, the fixed apology, whatever the error was; a 2xx
    response whose body can be read is not a failure: the assistant
    message appended carries the body's response field as it is, which is
    undefined when the body lacks it. *)
Theorem C6_failures_collapse (w : world) (i : nat) (rq : request) :
  inflight w !! i = Some rq →
  (∀ o, Axios.rejects o →
     messages (this (step w (Settled i o))) = messages (this w) ++ [fallback])
  ∧ (∀ status body e,
       Axios.validateStatus status = true →
       Get body "response" = Throw e →
       messages (this (step w (Settled i (Axios.Response status body))))
         = messages (this w) ++ [fallback])
  ∧ (∀ status body c,
       Axios.validateStatus status = true →
       Get body "response" = Normal c →
       messages (this (step w (Settled i (Axios.Response status body))))
         = messages (this w) ++ [{| role := "assistant"; content := c |}])
  ∧ (∀ status fields,
       Axios.validateStatus status = true →
       assoc "response" fields = Undefined →
       messages (this (step w (Settled i (Axios.Response status (Obj fields)))))
         = messages (this w) ++ [{| role := "assistant"; content := Undefined |}]).
Proof.
  intros Hrq.
  assert (Hok : ∀ status body,
    Axios.validateStatus status = true →
    messages (this (step w (Settled i (Axios.Response status body)))) =
      messages (this w) ++
        [match Get body "response" with
         | Normal c => {| role := "assistant"; content := c |}
         | Throw _ => fallback
         end]).
  { intros status body Hst. cbn [step]. rewrite Hrq, settle_fulfils by done.
    by rewrite resume_fulfilled. }
  split; [|split; [|split]].
  - intros o Hrej. cbn [step]. rewrite Hrq.
    destruct (settle_rejects o Hrej) as [e ->]. by rewrite resume_rejected.
  - intros status body e Hst Hget. by rewrite Hok, Hget.
  - intros status body c Hst Hget. by rewrite Hok, Hget.
  - intros status fields Hst Hnone. rewrite Hok by done. simpl. by rewrite Hnone.
Qed.

Lemma C6_witness :
  messages (this (step waiting (Settled 0 Axios.ConnectionRefused)))
    = messages (this waiting) ++ [fallback]
  ∧ messages (this (step waiting (Settled 0 (Axios.Response 200 Null))))
    = messages (this waiting) ++ [fallback]
  ∧ messages (this (step waiting
       (Settled 0 (Axios.Response 200 (Obj [("response", Str "120 m")])))))
    = messages (this waiting) ++ [{| role := "assistant"; content := Str "120 m" |}]
  ∧ messages (this (step waiting (Settled 0 (Axios.Response 200 (Obj [])))))
    = messages (this waiting) ++ [{| role := "assistant"; content := Undefined |}].
Proof.
  pose proof (C6_failures_collapse waiting 0
                {| url := "http://localhost:8001/chat";
                   message := "max altitude?"; session := None |} eq_refl)
    as (Hrej & Hthrow & Hok & Hmissing).
  split; [|split; [|split]].
  - exact (Hrej Axios.ConnectionRefused I).
  - exact (Hthrow 200%Z Null _ eq_refl eq_refl).
  - exact (Hok 200%Z (Obj [("response", Str "120 m")]) _ eq_refl eq_refl).
  - exact (Hmissing 200%Z [] eq_refl eq_refl).
Defined.

(** ** The greeting *)

Lemma step_greeting (w : world) (d : gmap string (list (gmap string number))) :
  messages (this (step w (FlightDataChanged d))) =
    if (0 <? length (Object_keys d)) && completes (host w) d
       && (length (messages (this w)) =? 0)
    then messages (this w) ++ [greeting] else messages (this w).
Proof.
  simpl. rewrite handler_messages. simpl.
  destruct (0 <? length (Object_keys d)) eqn:E; [|done].
  unfold hasFlightData. simpl. rewrite E. simpl.
  by rewrite negb_involutive.
Qed.

Lemma column_replicate (field : string) (msg : gmap string number) (v : number) (n : nat) :
  msg !! field = Some v →
  column field (replicate n msg) = replicate n (Some v).
Proof.
  intros Hv. unfold column.
  induction n as [|n IH]; [done|].
  simpl. rewrite Hv. simpl. by rewrite <- IH.
Qed.

Lemma column_att_long :
  column "alt" att_long = replicate (N.to_nat 150000) (Some (dyadic 1 0)).
Proof. by apply column_replicate. Qed.

Lemma overflows_att_long : overflows node "alt" (Some att_long) = true.
Proof.
  unfold overflows. rewrite column_att_long.
  destruct (replicate _ _) as [|v values] eqn:E.
  - apply (f_equal length) in E. rewrite length_replicate in E. simpl in E. lia.
  - rewrite <- E. unfold fits. rewrite length_replicate, N2Nat.id. reflexivity.
Qed.

(** C7, evaluated: the watcher appends the one fixed greeting of the
    assistant when flightData changes to a non-empty mapping, the list is
    empty and the call of updateFlightInfo returns; with a non-empty list
    or an empty mapping it appends nothing.  But when the alt column of
    the new ATT series has more values than the engine's calls take,
    Math.min(...altitudes) throws, the handler is left before the push and
    the list stays empty: on an engine taking 125512 arguments, 150000 ATT
    records each with alt 1 leave the message list empty. *)
Theorem C7_greeting_lost_on_overflow
    (w : world) (newData : gmap string (list (gmap string number))) :
  (∀ att, newData !! "ATT" = Some att →
     overflows (host w) "alt" (Some att) = true →
     messages (this w) = [] →
     newData ≠ ∅
     ∧ (handler (host w) newData (set_flightData newData (this w))).2
         = Throw (RangeError "Maximum call stack size exceeded")
     ∧ messages (this (step w (FlightDataChanged newData))) = [])
  ∧ (newData ≠ ∅ → completes (host w) newData = true → messages (this w) = [] →
       messages (this (step w (FlightDataChanged newData))) = [greeting])
  ∧ (messages (this w) ≠ [] →
       messages (this (step w (FlightDataChanged newData))) = messages (this w))
  ∧ (newData = ∅ →
       messages (this (step w (FlightDataChanged newData))) = messages (this w))
  ∧ role greeting = "assistant".
Proof.
  split; [|split; [|split; [|split]]].
  - intros att Hatt Hover Hnil.
    assert (Hne : newData ≠ ∅).
    { intros ->. by rewrite lookup_empty in Hatt. }
    assert (Hkeys : (0 <? length (Object_keys newData)) = true).
    { destruct (0 <? _) eqn:E; [done|]. by apply Object_keys_empty in E. }
    assert (Hc : completes (host w) newData = false).
    { unfold completes. by rewrite Hatt, Hover. }
    split; [done|split].
    + unfold handler. rewrite Hkeys.
      unfold mbind at 1, action_bind at 1.
      pose proof (updateFlightInfo_completion (host w)
                    (set_flightData newData (this w))) as Hthrow.
      unfold hasFlightData in Hthrow. simpl in Hthrow.
      rewrite Hkeys, Hc in Hthrow. simpl in Hthrow.
      destruct (updateFlightInfo _ _) as [vm' c]. simpl in Hthrow. by subst c.
    + by rewrite step_greeting, Hc, Hnil, andb_false_r.
  - intros Hne Hc Hnil. rewrite step_greeting, Hc, Hnil.
    destruct (0 <? length (Object_keys newData)) eqn:E; [done|].
    by apply Object_keys_empty in E.
  - intros Hne. rewrite step_greeting.
    destruct (messages (this w)); [done|]. by rewrite andb_false_r.
  - intros ->. by rewrite step_greeting.
  - done.
Qed.

Lemma C7_witness :
  messages (this (step (created node ∅) (FlightDataChanged log_long))) = []
  ∧ messages (this (step (step (created node ∅) (Input "hi")) (FlightDataChanged log_full)))
    = [greeting]
  ∧ messages (this (step waiting (FlightDataChanged log_att_only)))
    = messages (this waiting)
  ∧ messages (this (step waiting (FlightDataChanged ∅))) = messages (this waiting).
Proof.
  split; [|split; [|split]].
  - apply (proj1 (C7_greeting_lost_on_overflow (created node ∅) log_long) att_long).
    + apply lookup_singleton_eq.
    + exact overflows_att_long.
    + reflexivity.
  - apply (proj1 (proj2 (C7_greeting_lost_on_overflow
                           (step (created node ∅) (Input "hi")) log_full))).
    + vm_compute. discriminate.
    + reflexivity.
    + reflexivity.
  - apply (proj1 (proj2 (proj2 (C7_greeting_lost_on_overflow waiting log_att_only)))).
    vm_compute. discriminate.
  - apply (proj1 (proj2 (proj2 (proj2 (C7_greeting_lost_on_overflow waiting ∅))))).
    reflexivity.
Defined.

(** ** The message list only grows *)

Lemma step_appends (w : world) (ev : event) :
  ∃ new, messages (this (step w ev)) = messages (this w) ++ new
         ∧ Forall (λ m, role m = "user" ∨ role m = "assistant") new.
Proof.
  destruct ev as [text| |i o|newData|now].
  - exists []. by rewrite app_nil_r.
  - destruct (sendMessage_cases w) as [Hsame|(H1 & H2 & H3)].
    + exists []. simpl. by rewrite Hsame, app_nil_r.
    + eexists. simpl. rewrite sendMessage_accepted by done.
      split; [reflexivity|]. repeat constructor.
  - simpl. destruct (inflight w !! i).
    + destruct (resume_messages (Axios.settle o)
                  {| this := this w; inflight := delete i (inflight w);
                     console := console w; nextTick := nextTick w;
                     host := host w |}) as [c ->].
      eexists. split; [reflexivity|]. by repeat constructor; right.
    + exists []. by rewrite app_nil_r.
  - simpl. rewrite handler_messages. simpl.
    destruct (_ && _ && _).
    + eexists. split; [reflexivity|]. by repeat constructor; right.
    + exists []. by rewrite app_nil_r.
  - exists []. by rewrite app_nil_r.
Qed.

Lemma run_prefix (evs : list event) (w : world) :
  messages (this w) `prefix_of` messages (this (run w evs)).
Proof.
  revert w. induction evs as [|ev evs IH]; intros w; [done|].
  etrans; [|apply IH].
  destruct (step_appends w ev) as (new & -> & _). by apply prefix_app_r.
Qed.

Lemma run_snoc (w : world) (evs : list event) (ev : event) :
  run w (evs ++ [ev]) = step (run w evs) ev.
Proof. unfold run. by rewrite fold_left_app. Qed.

(** C8: every event of the component (a keystroke, a send, the settling of
    a request on success or failure, a change of flightData, mounting)
    leaves the message list as it was or appends to it, and what it
    appends has role "user" or "assistant"; the second half of
    sendMessage appends exactly one assistant message whatever the
    promise settled to; over any sequence of events every entry stays at
    its index, unchanged, and the length never decreases. *)
Theorem C8_append_only :
  (∀ (w : world) (ev : event),
     ∃ new, messages (this (step w ev)) = messages (this w) ++ new
            ∧ Forall (λ m, role m = "user" ∨ role m = "assistant") new)
  ∧ (∀ (w : world) (r : Axios.settled),
       ∃ c, messages (this (resume r w))
            = messages (this w) ++ [{| role := "assistant"; content := c |}])
  ∧ (∀ (w : world) (evs : list event) (i : nat) (m : Message),
       messages (this w) !! i = Some m →
       messages (this (run w evs)) !! i = Some m)
  ∧ (∀ (w : world) (evs : list event),
       length (messages (this w)) ≤ length (messages (this (run w evs)))).
Proof.
  split; [exact step_appends|split; [|split]].
  - intros w r. apply resume_messages.
  - intros w evs i m Hi. by eapply prefix_lookup_Some, run_prefix.
  - intros w evs. apply prefix_length, run_prefix.
Qed.

Lemma C8_witness :
  messages (this (run (created node log_full)
     [Input "max altitude?"; Submit; FlightDataChanged log_att_only;
      Settled 0 (Axios.Response 200 (Obj [("response", Str "120 m")]));
      Input "and the lowest?"; Submit; Settled 0 Axios.Timeout])) !! 0
  = Some greeting.
Proof.
  exact (proj1 (proj2 (proj2 C8_append_only)) (created node log_full)
           [Input "max altitude?"; Submit; FlightDataChanged log_att_only;
            Settled 0 (Axios.Response 200 (Obj [("response", Str "120 m")]));
            Input "and the lowest?"; Submit; Settled 0 Axios.Timeout]
           0 greeting eq_refl).
Defined.

(** ** The text box *)

(** While a request is in flight and nothing settles, the busy flag stays
    set and the text box holds what was typed last. *)
Lemma run_while_busy (evs : list event) (w : world) :
  forallb (λ ev, negb (settles ev)) evs = true →
  isLoading (this w) = true →
  isLoading (this (run w evs)) = true
  ∧ newMessage (this (run w evs)) = typed_since evs (newMessage (this w)).
Proof.
  revert w. induction evs as [|ev evs IH]; intros w Hevs Hbusy; [done|].
  simpl in Hevs. apply andb_prop in Hevs as [Hev Hevs].
  destruct ev as [text| |i o|newData|now]; try discriminate; simpl.
  - by apply IH.
  - rewrite sendMessage_rejected by auto. by apply IH.
  - destruct (handler_frame (host w) newData (set_flightData newData (this w)))
      as (Hn & Hl).
    destruct (IH (with_this (handler (host w) newData
                               (set_flightData newData (this w))).1 w) Hevs)
      as (-> & ->); [by rewrite <- Hbusy|].
    split; [done|]. simpl. by rewrite Hn.
  - by apply (IH (with_this (mounted now (this w)) w)).
Qed.

Lemma settled_newMessage (w : world) (i : nat) (o : Axios.outcome) :
  newMessage (this (step w (Settled i o))) = newMessage (this w).
Proof.
  simpl. destruct (inflight w !! i); [|done]. by rewrite resume_newMessage.
Qed.

(** C10: a sendMessage call that passes its guard hands the request to the
    HTTP client in a world whose text box is already empty, having
    appended the typed text as a user message; nothing that follows puts
    the text back: when the request settles, fulfilled or rejected, the
    text box holds what was typed since (the empty string if nothing was),
    and the user message is still where it was appended. *)
Theorem C10_text_box_cleared (w : world) :
  truthy (trim (newMessage (this w))) = true →
  isLoading (this w) = false →
  hasFlightData (this w) = true →
  (∃ vm, newMessage vm = ""
         ∧ sendMessage w =
             post {| url := "http://localhost:8001/chat";
                     message := newMessage (this w);
                     session := sessionId (this w) |} (with_this vm w))
  ∧ newMessage (this (sendMessage w)) = ""
  ∧ messages (this (sendMessage w)) =
      messages (this w) ++ [{| role := "user"; content := Str (newMessage (this w)) |}]
  ∧ (∀ (evs : list event) (i : nat) (o : Axios.outcome),
       forallb (λ ev, negb (settles ev)) evs = true →
       newMessage (this (step (run (sendMessage w) evs) (Settled i o)))
         = typed_since evs ""
       ∧ messages (this (step (run (sendMessage w) evs) (Settled i o)))
           !! length (messages (this w))
         = Some {| role := "user"; content := Str (newMessage (this w)) |}).
Proof.
  intros H1 H2 H3. rewrite sendMessage_accepted by done.
  split; [|split; [|split]].
  - eexists. split; [|reflexivity]. done.
  - done.
  - done.
  - intros evs i o Hevs.
    set (w1 := post _ _).
    destruct (run_while_busy evs w1 Hevs eq_refl) as (_ & Htyped).
    split.
    + by rewrite settled_newMessage, Htyped.
    + apply (prefix_lookup_Some (messages (this w1))).
      * subst w1. simpl. by rewrite lookup_app_r, Nat.sub_diag.
      * rewrite <- run_snoc. apply run_prefix.
Qed.

Lemma C10_witness :
  newMessage (this (sendMessage typed)) = ""
  ∧ newMessage (this (step (run (sendMessage typed)
        [Input "and"; Submit; FlightDataChanged log_att_only; Input "and the lowest?"])
        (Settled 0 Axios.ConnectionRefused)))
    = "and the lowest?"
  ∧ newMessage (this (step (run (sendMessage typed) [])
        (Settled 0 (Axios.Response 200 (Obj [("response", Str "120 m")])))))
    = "".
Proof.
  pose proof (C10_text_box_cleared typed eq_refl eq_refl eq_refl)
    as (_ & Hclear & _ & Hlater).
  split; [exact Hclear|split].
  - exact (proj1 (Hlater
             [Input "and"; Submit; FlightDataChanged log_att_only; Input "and the lowest?"]
             0 Axios.ConnectionRefused eq_refl)).
  - exact (proj1 (Hlater [] 0
             (Axios.Response 200 (Obj [("response", Str "120 m")])) eq_refl)).
Defined.

End Chat.

(* ===================================================================== *)
(** * Math.min and Math.max *)
(* ===================================================================== *)

Module Extremes.
Import Js ChatBot Fields Inputs Summary.

(** [lt] on Numbers other than NaN is a strict weak order. *)
Ltac by_compare :=
  repeat match goal with
         | |- context [Pos.compare_cont Eq ?a ?b] =>
             change (Pos.compare_cont Eq a b) with (Pos.compare a b);
             destruct (Pos.compare_spec a b)
         | |- context [Z.compare ?a ?b] => destruct (Z.compare_spec a b)
         end;
  simpl; try done; try lia.

Lemma lt_trans (a b c : number) : lt a b = true → lt b c = true → lt a c = true.
Proof.
  unfold lt, SFltb, SFcompare.
  destruct a as [[]|[]| |[] ma ea], b as [[]|[]| |[] mb eb], c as [[]|[]| |[] mc ec];
    try done; by_compare.
Qed.

Lemma lt_incomparable (a b c : number) :
  a ≠ NaN → b ≠ NaN → c ≠ NaN →
  lt a b = false → lt b c = false → lt a c = false.
Proof.
  unfold lt, SFltb, SFcompare, NaN.
  destruct a as [[]|[]| |[] ma ea], b as [[]|[]| |[] mb eb], c as [[]|[]| |[] mc ec];
    try done; intros _ _ _; by_compare.
Qed.

Lemma lt_zero_sign (s s' : bool) (x : number) :
  lt (S754_zero s) x = lt (S754_zero s') x ∧ lt x (S754_zero s) = lt x (S754_zero s').
Proof. by destruct x as [[]|[]| |[] m e]. Qed.

Lemma lt_Infinity (x : number) : x ≠ NaN → lt x Infinity = false → x = Infinity.
Proof. by destruct x as [[]|[]| |[] m e]. Qed.

Lemma lt_neg_Infinity (x : number) : x ≠ NaN → lt (neg Infinity) x = false → x = neg Infinity.
Proof. by destruct x as [[]|[]| |[] m e]. Qed.

(** One NaN among the arguments makes the result NaN. *)
Lemma min_loop_NaN (coerced : list number) (lowest : number) :
  NaN ∈ coerced → min_loop lowest coerced = NaN.
Proof.
  revert lowest. induction coerced as [|n rest IH]; intros lowest Hin.
  - by apply elem_of_nil in Hin.
  - apply elem_of_cons in Hin as [<-|Hin]; [done|].
    simpl. destruct n as [[]| | |]; try done;
      destruct lowest as [[]| | |]; try done;
      try (destruct (lt _ _)); by apply IH.
Qed.

Lemma max_loop_NaN (coerced : list number) (highest : number) :
  NaN ∈ coerced → max_loop highest coerced = NaN.
Proof.
  revert highest. induction coerced as [|n rest IH]; intros highest Hin.
  - by apply elem_of_nil in Hin.
  - apply elem_of_cons in Hin as [<-|Hin]; [done|].
    simpl. destruct n as [[]| | |]; try done;
      destruct highest as [[]| | |]; try done;
      try (destruct (lt _ _)); by apply IH.
Qed.

(** Without NaN the result is the start value or one of the arguments, it
    is not above the start value and no argument is below it. *)
Lemma min_loop_spec (coerced : list number) (lowest : number) :
  lowest ≠ NaN → NaN ∉ coerced →
  (min_loop lowest coerced = lowest ∨ min_loop lowest coerced ∈ coerced)
  ∧ min_loop lowest coerced ≠ NaN
  ∧ lt lowest (min_loop lowest coerced) = false
  ∧ ∀ x, x ∈ coerced → lt x (min_loop lowest coerced) = false.
Proof.
  revert lowest. induction coerced as [|n rest IH]; intros lowest Hlow Hnan.
  - simpl. repeat split; [by left|done| |].
    + by destruct lowest as [[]|[]| |[] m e]; unfold lt, SFltb; simpl;
        rewrite ?Z.compare_refl, ?Pos.compare_cont_refl.
    + intros x Hx. by apply elem_of_nil in Hx.
  - apply not_elem_of_cons in Hnan as [Hn Hrest].
    assert (Hn' : n ≠ NaN) by congruence. clear Hn. rename Hn' into Hn.
    assert (Hstep : min_loop lowest (n :: rest) = min_loop n rest
                    ∧ (lt n lowest = true
                       ∨ ∃ s s', n = S754_zero s ∧ lowest = S754_zero s')
                    ∨ min_loop lowest (n :: rest) = min_loop lowest rest
                      ∧ lt n lowest = false).
    { simpl. destruct n as [[]|[]| |[] mn en]; try done;
        destruct lowest as [[]|[]| |[] ml el]; try done;
        try (destruct (lt _ _) eqn:E; [left|right]; by eauto);
        left; split; eauto. }
    destruct Hstep as [(-> & Hlt)|(-> & Hge)].
    + destruct (IH n Hn Hrest) as (Hmem & Hr & Hle & Hall).
      repeat split; [| done | |].
      * right. destruct Hmem as [->|Hmem]; [by left|by right].
      * destruct Hlt as [Hlt|(s & s' & -> & ->)].
        -- destruct (lt lowest (min_loop n rest)) eqn:E; [|done].
           by rewrite (lt_trans _ _ _ Hlt E) in Hle.
        -- by rewrite (proj1 (lt_zero_sign s' s _)).
      * intros x Hx. apply elem_of_cons in Hx as [->|Hx]; [done|by apply Hall].
    + destruct (IH lowest Hlow Hrest) as (Hmem & Hr & Hle & Hall).
      repeat split; [| done | done |].
      * destruct Hmem as [->|Hmem]; [by left|right; by right].
      * intros x Hx. apply elem_of_cons in Hx as [->|Hx]; [|by apply Hall].
        by apply (lt_incomparable n lowest).
Qed.

Lemma max_loop_spec (coerced : list number) (highest : number) :
  highest ≠ NaN → NaN ∉ coerced →
  (max_loop highest coerced = highest ∨ max_loop highest coerced ∈ coerced)
  ∧ max_loop highest coerced ≠ NaN
  ∧ lt (max_loop highest coerced) highest = false
  ∧ ∀ x, x ∈ coerced → lt (max_loop highest coerced) x = false.
Proof.
  revert highest. induction coerced as [|n rest IH]; intros highest Hhigh Hnan.
  - simpl. repeat split; [by left|done| |].
    + by destruct highest as [[]|[]| |[] m e]; unfold lt, SFltb; simpl;
        rewrite ?Z.compare_refl, ?Pos.compare_cont_refl.
    + intros x Hx. by apply elem_of_nil in Hx.
  - apply not_elem_of_cons in Hnan as [Hn Hrest].
    assert (Hn' : n ≠ NaN) by congruence. clear Hn. rename Hn' into Hn.
    assert (Hstep : max_loop highest (n :: rest) = max_loop n rest
                    ∧ (lt highest n = true
                       ∨ ∃ s s', n = S754_zero s ∧ highest = S754_zero s')
                    ∨ max_loop highest (n :: rest) = max_loop highest rest
                      ∧ lt highest n = false).
    { simpl. destruct n as [[]|[]| |[] mn en]; try done;
        destruct highest as [[]|[]| |[] ml el]; try done;
        try (destruct (lt _ _) eqn:E; [left|right]; by eauto);
        left; split; eauto. }
    destruct Hstep as [(-> & Hlt)|(-> & Hge)].
    + destruct (IH n Hn Hrest) as (Hmem & Hr & Hle & Hall).
      repeat split; [| done | |].
      * right. destruct Hmem as [->|Hmem]; [by left|by right].
      * destruct Hlt as [Hlt|(s & s' & -> & ->)].
        -- destruct (lt (max_loop n rest) highest) eqn:E; [|done].
           by rewrite (lt_trans _ _ _ E Hlt) in Hle.
        -- by rewrite (proj2 (lt_zero_sign s' s _)).
      * intros x Hx. apply elem_of_cons in Hx as [->|Hx]; [done|by apply Hall].
    + destruct (IH highest Hhigh Hrest) as (Hmem & Hr & Hle & Hall).
      repeat split; [| done | done |].
      * destruct Hmem as [->|Hmem]; [by left|right; by right].
      * intros x Hx. apply elem_of_cons in Hx as [->|Hx]; [|by apply Hall].
        by apply (lt_incomparable _ highest).
Qed.

(** What [column] keeps. *)
Lemma column_elem (field : string) (series : list (gmap string number)) (v : number) :
  Some v ∈ column field series ↔ ∃ msg, msg ∈ series ∧ msg !! field = Some v.
Proof.
  unfold column. rewrite list_elem_of_In, filter_In, in_map_iff. split.
  - intros ((msg & Hmsg & Hin) & _). exists msg. by rewrite list_elem_of_In.
  - intros (msg & Hin & Hmsg). split; [|done].
    exists msg. by rewrite <- list_elem_of_In.
Qed.

Lemma column_defined (field : string) (series : list (gmap string number)) o :
  o ∈ column field series → ∃ v, o = Some v.
Proof.
  unfold column. rewrite list_elem_of_In, filter_In.
  intros (_ & Hdef). destruct o; [eauto|done].
Qed.

Lemma coerced_elem (field : string) (series : list (gmap string number)) (x : number) :
  x ∈ map ToNumber (column field series) ↔ ∃ msg, msg ∈ series ∧ msg !! field = Some x.
Proof.
  rewrite <- column_elem, list_elem_of_In, in_map_iff. split.
  - intros (o & <- & Hin). apply list_elem_of_In in Hin.
    by destruct (column_defined _ _ _ Hin) as [v ->].
  - intros Hin. exists (Some x). by rewrite <- list_elem_of_In.
Qed.

(** Minimum and maximum of a column without NaN: both are values of
    records of the series, and they bound every value. *)
Lemma column_extremes (field : string) (series : list (gmap string number)) :
  column field series ≠ [] →
  (∀ msg, msg ∈ series → msg !! field ≠ Some NaN) →
  let lo := Math_min (map ToNumber (column field series)) in
  let hi := Math_max (map ToNumber (column field series)) in
  (∃ msg, msg ∈ series ∧ msg !! field = Some lo)
  ∧ (∃ msg, msg ∈ series ∧ msg !! field = Some hi)
  ∧ (∀ msg v, msg ∈ series → msg !! field = Some v →
       lt v lo = false ∧ lt hi v = false).
Proof.
  intros Hne Hnan lo hi.
  assert (Hno : NaN ∉ map ToNumber (column field series)).
  { intros (msg & Hin & Hmsg)%coerced_elem. by apply (Hnan msg). }
  assert (Hfirst : ∃ x, x ∈ map ToNumber (column field series)).
  { destruct (column field series) as [|o values]; [done|].
    exists (ToNumber o). simpl. by left. }
  destruct Hfirst as [x Hx].
  destruct (min_loop_spec _ Infinity ltac:(done) Hno) as (Hmin & _ & _ & Hlow).
  destruct (max_loop_spec _ (neg Infinity) ltac:(done) Hno) as (Hmax & _ & _ & Hhigh).
  fold (Math_min (map ToNumber (column field series))) in Hmin, Hlow.
  fold (Math_max (map ToNumber (column field series))) in Hmax, Hhigh.
  fold lo in Hmin, Hlow. fold hi in Hmax, Hhigh.
  assert (Hxn : x ≠ NaN) by (by intros ->).
  split; [|split].
  - apply coerced_elem. destruct Hmin as [Hmin|Hmin]; [|done].
    pose proof (Hlow x Hx) as Hlt. rewrite Hmin in Hlt |- *.
    by rewrite <- (lt_Infinity x Hxn Hlt).
  - apply coerced_elem. destruct Hmax as [Hmax|Hmax]; [|done].
    pose proof (Hhigh x Hx) as Hlt. rewrite Hmax in Hlt |- *.
    by rewrite <- (lt_neg_Infinity x Hxn Hlt).
  - intros msg v Hin Hv.
    assert (Hv' : v ∈ map ToNumber (column field series)) by (apply coerced_elem; eauto).
    split; [by apply Hlow|by apply Hhigh].
Qed.

Lemma column_NaN (field unit : string) (series : list (gmap string number)) msg :
  msg ∈ series → msg !! field = Some NaN →
  range unit (column field series) = "NaN" +:+ unit +:+ " - NaN" +:+ unit.
Proof.
  intros Hin Hmsg. unfold range.
  assert (Hnan : NaN ∈ map ToNumber (column field series)) by (apply coerced_elem; eauto).
  unfold Math_min, Math_max. by rewrite min_loop_NaN, max_loop_NaN.
Qed.

Lemma column_nonempty (field : string) (series : list (gmap string number)) msg v :
  msg ∈ series → msg !! field = Some v → column field series ≠ [].
Proof.
  intros Hin Hmsg Hnil.
  assert (H : Some v ∈ column field series) by (apply column_elem; eauto).
  rewrite Hnil in H. by apply elem_of_nil in H.
Qed.

Lemma range_of_column (e : engine) (unit field : string)
    (series : list (gmap string number)) old :
  column field series ≠ [] → fits e (column field series) = true →
  range_of e unit field (Some series) old = Some (range unit (column field series)).
Proof.
  unfold range_of. intros Hne Hfits.
  destruct (column field series); [done|]. by rewrite Hfits.
Qed.

(** X3: Altitude badge: when some ATT record defines alt, no alt is NaN
    and the alt column is within the argument limit of the engine,
    updateFlightInfo writes "<lo>m - <hi>m" where lo and hi are alt values
    of records of the series, no alt value is below lo and none is above
    hi; each is printed with toFixed(1).  Battery badge likewise, from the
    volt values of the BAT series, with unit V, when the volt column and
    the alt column before it are within the limit. *)
Theorem range_badge_bounds (e : engine) (vm : component) :
  (∀ att : list (gmap string number),
     flightData vm !! "ATT" = Some att →
     (∃ msg, msg ∈ att ∧ is_Some (msg !! "alt")) →
     (∀ msg, msg ∈ att → msg !! "alt" ≠ Some NaN) →
     fits e (column "alt" att) = true →
     ∃ lo hi,
       (∃ msg, msg ∈ att ∧ msg !! "alt" = Some lo)
       ∧ (∃ msg, msg ∈ att ∧ msg !! "alt" = Some hi)
       ∧ (∀ msg v, msg ∈ att → msg !! "alt" = Some v →
            lt v lo = false ∧ lt hi v = false)
       ∧ altitudeRange (updateFlightInfo e vm).1
         = Some (toFixed lo 1 +:+ "m - " +:+ toFixed hi 1 +:+ "m"))
  ∧ (∀ bat : list (gmap string number),
       flightData vm !! "BAT" = Some bat →
       (∃ msg, msg ∈ bat ∧ is_Some (msg !! "volt")) →
       (∀ msg, msg ∈ bat → msg !! "volt" ≠ Some NaN) →
       fits e (column "volt" bat) = true →
       (∀ att, flightData vm !! "ATT" = Some att → fits e (column "alt" att) = true) →
       ∃ lo hi,
         (∃ msg, msg ∈ bat ∧ msg !! "volt" = Some lo)
         ∧ (∃ msg, msg ∈ bat ∧ msg !! "volt" = Some hi)
         ∧ (∀ msg v, msg ∈ bat → msg !! "volt" = Some v →
              lt v lo = false ∧ lt hi v = false)
         ∧ batteryRange (updateFlightInfo e vm).1
           = Some (toFixed lo 1 +:+ "V - " +:+ toFixed hi 1 +:+ "V")).
Proof.
  split.
  - intros att Hatt (msg0 & Hin0 & v0 & Hv0) Hnan Hfits.
    pose proof (column_nonempty "alt" att msg0 v0 Hin0 Hv0) as Hne.
    destruct (column_extremes "alt" att Hne Hnan) as (Hlo & Hhi & Hall).
    eexists _, _. split; [exact Hlo|split; [exact Hhi|split; [exact Hall|]]].
    rewrite updateFlightInfo_fields by eauto using hasFlightData_lookup.
    simpl. rewrite Hatt. by rewrite range_of_column.
  - intros bat Hbat (msg0 & Hin0 & v0 & Hv0) Hnan Hfits Hatt.
    pose proof (column_nonempty "volt" bat msg0 v0 Hin0 Hv0) as Hne.
    destruct (column_extremes "volt" bat Hne Hnan) as (Hlo & Hhi & Hall).
    eexists _, _. split; [exact Hlo|split; [exact Hhi|split; [exact Hall|]]].
    rewrite updateFlightInfo_fields by eauto using hasFlightData_lookup.
    simpl. rewrite overflows_fits by done. rewrite Hbat. by rewrite range_of_column.
Qed.

(** X4: One NaN among the alt values of the ATT series turns the altitude
    badge into "NaNm - NaNm", whatever the other values, when the alt
    column is within the argument limit of the engine; one NaN among the
    volt values of the BAT series turns the battery badge into
    "NaNV - NaNV", when the volt column and the alt column before it are
    within the limit. *)
Theorem range_badge_NaN (e : engine) (vm : component) :
  (∀ (att : list (gmap string number)) msg,
     flightData vm !! "ATT" = Some att → msg ∈ att → msg !! "alt" = Some NaN →
     fits e (column "alt" att) = true →
     altitudeRange (updateFlightInfo e vm).1 = Some "NaNm - NaNm")
  ∧ (∀ (bat : list (gmap string number)) msg,
       flightData vm !! "BAT" = Some bat → msg ∈ bat → msg !! "volt" = Some NaN →
       fits e (column "volt" bat) = true →
       (∀ att, flightData vm !! "ATT" = Some att → fits e (column "alt" att) = true) →
       batteryRange (updateFlightInfo e vm).1 = Some "NaNV - NaNV").
Proof.
  split.
  - intros att msg Hatt Hin Hmsg Hfits.
    rewrite updateFlightInfo_fields by eauto using hasFlightData_lookup.
    simpl. rewrite Hatt, range_of_column by eauto using column_nonempty.
    by rewrite (column_NaN "alt" "m" att msg).
  - intros bat msg Hbat Hin Hmsg Hfits Hatt.
    rewrite updateFlightInfo_fields by eauto using hasFlightData_lookup.
    simpl. rewrite overflows_fits by done.
    rewrite Hbat, range_of_column by eauto using column_nonempty.
    by rewrite (column_NaN "volt" "V" bat msg).
Qed.

Lemma range_badge_bounds_witness :
  ∃ lo hi,
    (∀ msg v, msg ∈ att_1_525 → msg !! "alt" = Some v → lt v lo = false ∧ lt hi v = false)
    ∧ altitudeRange (updateFlightInfo node (data log_full)).1
      = Some (toFixed lo 1 +:+ "m - " +:+ toFixed hi 1 +:+ "m").
Proof.
  destruct (proj1 (range_badge_bounds node (data log_full)) att_1_525 eq_refl)
    as (lo & hi & _ & _ & Hall & Hrange).
  - exists {[ "alt" := dyadic 1 0 ]}. split; [by left|by eexists].
  - intros msg Hin.
    repeat (apply elem_of_cons in Hin as [->|Hin]; [by vm_compute|]).
    by apply elem_of_nil in Hin.
  - reflexivity.
  - exact (ex_intro _ lo (ex_intro _ hi (conj Hall Hrange))).
Defined.

Lemma range_badge_NaN_witness :
  altitudeRange (updateFlightInfo node
    (data {[ "ATT" := [ {[ "alt" := dyadic 1 0 ]}; {[ "alt" := NaN ]} ] ]})).1
  = Some "NaNm - NaNm".
Proof.
  apply (proj1 (range_badge_NaN node
                  (data {[ "ATT" := [ {[ "alt" := dyadic 1 0 ]}; {[ "alt" := NaN ]} ] ]}))
           [ {[ "alt" := dyadic 1 0 ]}; {[ "alt" := NaN ]} ] {[ "alt" := NaN ]}).
  - reflexivity.
  - right. by left.
  - reflexivity.
  - reflexivity.
Defined.

End Extremes.

(* ===================================================================== *)
(** * When a send goes through *)
(* ===================================================================== *)

Module Acceptance.
Import Js ChatBot Inputs Summary.

Lemma append_nil_r (s : string) : s +:+ "" = s.
Proof. induction s as [|c s IH]; [done|]. exact (f_equal (String c) IH). Qed.

Lemma append_assoc (a b c : string) : (a +:+ b) +:+ c = a +:+ (b +:+ c).
Proof. induction a as [|x a IH]; [done|]. exact (f_equal (String x) IH). Qed.

Lemma rev_app_rev_app (a c d : string) :
  String.rev_app (String.rev_app a c) d = String.rev_app c (a +:+ d).
Proof.
  revert c d. induction a as [|x a IH]; intros c d; simpl; [done|].
  by rewrite IH.
Qed.

Lemma rev_involutive (s : string) : String.rev (String.rev s) = s.
Proof. unfold String.rev. rewrite rev_app_rev_app. simpl. apply append_nil_r. Qed.

Lemma rev_app_append (a c : string) : String.rev_app a c = String.rev a +:+ c.
Proof.
  unfold String.rev. revert c. induction a as [|x a IH]; intros c; simpl; [done|].
  by rewrite (IH (String x c)), (IH (String x "")), append_assoc.
Qed.

Lemma rev_append (a b : string) : String.rev (a +:+ b) = String.rev b +:+ String.rev a.
Proof.
  unfold String.rev at 1. revert b. induction a as [|x a IH]; intros b; simpl.
  - fold (String.rev b). by rewrite append_nil_r.
  - change (String.rev_app (String x (a +:+ b)) "")
      with (String.rev_app (a +:+ b) (String x "")).
    rewrite rev_app_append.
    change (String.rev (a +:+ b)) with (String.rev_app (a +:+ b) "").
    rewrite IH, append_assoc. f_equal.
    unfold String.rev. simpl. by rewrite (rev_app_append a (String x "")).
Qed.

Lemma strip_Some (p s rest : string) : strip p s = Some rest → s = p +:+ rest.
Proof.
  revert s. induction p as [|a p IH]; intros s; simpl.
  - by intros [= ->].
  - destruct s as [|b s]; [done|].
    destruct (Ascii.eqb_spec a b) as [->|]; [|done].
    intros H. by rewrite (IH s H).
Qed.

Lemma strip_any_Some (ps : list string) (s rest : string) :
  strip_any ps s = Some rest → ∃ p, p ∈ ps ∧ s = p +:+ rest.
Proof.
  induction ps as [|p ps IH]; simpl; [done|].
  destruct (strip p s) as [r|] eqn:E.
  - intros [= ->]. exists p. split; [by left|by apply strip_Some].
  - intros (q & Hq & ->)%IH. exists q. split; [by right|done].
Qed.

(** What [trim_loop] removed is a sequence of the given patterns. *)
Lemma trim_loop_removed (ps : list string) (fuel : nat) (s : string) :
  ∃ removed, Forall (λ p, p ∈ ps) removed
             ∧ s = foldr String.append (trim_loop ps fuel s) removed.
Proof.
  revert s. induction fuel as [|fuel IH]; intros s; simpl.
  - by exists [].
  - destruct (strip_any ps s) as [rest|] eqn:E; [|by exists []].
    destruct (strip_any_Some ps s rest E) as (p & Hp & ->).
    destruct (IH rest) as (removed & Hall & Hrest).
    exists (p :: removed). split; [by constructor|].
    simpl. by rewrite <- Hrest.
Qed.

Lemma whitespace_only_append (a b : string) :
  whitespace_only a → whitespace_only b → whitespace_only (a +:+ b).
Proof.
  induction 1 as [|p a Hp Ha IH]; intros Hb; simpl; [done|].
  rewrite append_assoc. constructor; auto.
Qed.

Lemma whitespace_only_one (p : string) :
  p ∈ WhiteSpace_LineTerminator → whitespace_only p.
Proof.
  intros Hp. rewrite <- (append_nil_r p). constructor; [done|constructor].
Qed.

Lemma removed_front (removed : list string) :
  Forall (λ p, p ∈ WhiteSpace_LineTerminator) removed →
  whitespace_only (foldr String.append "" removed).
Proof. induction 1; simpl; by constructor. Qed.

Lemma removed_back (removed : list string) :
  Forall (λ p, p ∈ map String.rev WhiteSpace_LineTerminator) removed →
  whitespace_only (String.rev (foldr String.append "" removed)).
Proof.
  induction 1 as [|q removed Hq _ IH]; simpl; [constructor|].
  rewrite rev_append. apply whitespace_only_append; [done|].
  apply list_elem_of_In, in_map_iff in Hq as (p & <- & Hp).
  rewrite rev_involutive. by apply whitespace_only_one, list_elem_of_In.
Qed.

Lemma foldr_append (removed : list string) (s : string) :
  foldr String.append s removed = foldr String.append "" removed +:+ s.
Proof.
  induction removed as [|p removed IH]; simpl; [done|].
  by rewrite IH, append_assoc.
Qed.

Lemma trim_empty_inv (s : string) : trim s = "" → whitespace_only s.
Proof.
  unfold trim, trimStart, trimEnd. intros Hend.
  destruct (trim_loop_removed WhiteSpace_LineTerminator (String.length s) s)
    as (front & Hfront & Hs).
  set (r := trim_loop WhiteSpace_LineTerminator (String.length s) s) in *.
  destruct (trim_loop_removed (map String.rev WhiteSpace_LineTerminator)
              (String.length r) (String.rev r)) as (back & Hback & Hr).
  assert (Hnil : trim_loop (map String.rev WhiteSpace_LineTerminator)
                   (String.length r) (String.rev r) = "").
  { by rewrite <- (rev_involutive (trim_loop _ _ _)), Hend. }
  rewrite Hnil in Hr.
  rewrite Hs, foldr_append.
  apply whitespace_only_append; [by apply removed_front|].
  rewrite <- (rev_involutive r), Hr. by apply removed_back.
Qed.

(** X9: [trim] gives the empty string exactly on the strings made of white
    space and line terminators only (the empty string among them), so
    these are the texts the guard of sendMessage turns away. *)
Theorem trim_empty_iff (s : string) :
  (trim s = "" ↔ whitespace_only s)
  ∧ (truthy (trim s) = false ↔ whitespace_only s).
Proof.
  assert (H : trim s = "" ↔ whitespace_only s).
  { split; [apply trim_empty_inv|apply Blank.trim_blank]. }
  split; [done|]. rewrite <- H. by destruct (trim s).
Qed.

Lemma trim_empty_iff_witness : trim "  " = "" ∧ ¬ whitespace_only "a b".
Proof.
  split.
  - apply (proj1 (trim_empty_iff "  ")).
    apply (blank_more " " " "); [by vm_compute; set_solver|].
    apply (blank_more " " ""); [by vm_compute; set_solver|].
    constructor.
  - intros H. apply (proj1 (trim_empty_iff "a b")) in H.
    vm_compute in H. discriminate.
Defined.

Lemma truthy_trim (s : string) : truthy (trim s) = false ↔ whitespace_only s.
Proof.
  split.
  - intros H. apply trim_empty_inv. by destruct (trim s).
  - intros H. by rewrite Blank.trim_blank.
Qed.

(** X10: sendMessage does something exactly when the text box and the button
    are enabled (not busy, flight data loaded) and the text holds more
    than white space; it then adds one request to those in flight. *)
Theorem send_goes_through_iff (w : world) :
  (sendMessage w ≠ w
   ↔ disabled (this w) = false ∧ ¬ whitespace_only (newMessage (this w)))
  ∧ (sendMessage w = w ∨ length (inflight (sendMessage w)) = S (length (inflight w))).
Proof.
  assert (Hgrow : truthy (trim (newMessage (this w))) = true →
                  isLoading (this w) = false → hasFlightData (this w) = true →
                  length (inflight (sendMessage w)) = S (length (inflight w))).
  { intros H1 H2 H3. rewrite Chat.sendMessage_accepted by done.
    simpl. rewrite length_app. simpl. lia. }
  split; [split|].
  - intros Hne.
    destruct (Chat.sendMessage_cases w) as [Hsame|(H1 & H2 & H3)]; [done|].
    split.
    + unfold disabled. by rewrite H2, H3.
    + intros Hws%truthy_trim. congruence.
  - intros (Hen & Hws) Hsame. unfold disabled in Hen.
    apply orb_false_elim in Hen as (H2 & H3%negb_false_iff).
    destruct (truthy (trim (newMessage (this w)))) eqn:H1.
    + pose proof (Hgrow eq_refl H2 H3) as Hlen. rewrite Hsame in Hlen. lia.
    + by apply Hws, truthy_trim.
  - destruct (Chat.sendMessage_cases w) as [Hsame|(H1 & H2 & H3)]; [by left|right; auto].
Qed.

Lemma send_goes_through_iff_witness : sendMessage typed ≠ typed.
Proof.
  apply (proj1 (send_goes_through_iff typed)). split; [reflexivity|].
  intros H. apply Blank.trim_blank in H. vm_compute in H. discriminate.
Defined.

End Acceptance.

(* ===================================================================== *)
(** * The conversation *)
(* ===================================================================== *)

Module Conversation.
Import Js ChatBot Inputs Fields Summary Invariants.

#[local] Open Scope nat_scope.

Lemma adjacent_snoc (ms : list Message) (m : Message) :
  (∀ i m1 m2, ms !! i = Some m1 → ms !! S i = Some m2 → role m1 ≠ role m2) →
  (∀ l, last ms = Some l → role l ≠ role m) →
  ∀ i m1 m2, (ms ++ [m]) !! i = Some m1 → (ms ++ [m]) !! S i = Some m2 →
             role m1 ≠ role m2.
Proof.
  intros Hadj Hlast i m1 m2 H1 H2.
  apply lookup_snoc_Some in H2 as [(Hlt & H2)|(Heq & <-)].
  - rewrite lookup_app_l in H1 by lia. by apply (Hadj i).
  - rewrite lookup_app_l in H1 by lia.
    apply Hlast. rewrite last_lookup, <- Heq. done.
Qed.

Lemma snoc_not_nil (ms : list Message) (m : Message) : ms ++ [m] ≠ [].
Proof. by destruct ms. Qed.

Lemma head_snoc (ms : list Message) (m g : Message) :
  ms !! 0 = Some g → (ms ++ [m]) !! 0 = Some g.
Proof. apply lookup_app_l_Some. Qed.

Lemma resume_flightData (r : Axios.settled) (w : world) :
  flightData (this (resume r w)) = flightData (this w).
Proof.
  unfold resume. destruct r as [response|e]; [|done].
  by destruct (Get _ _).
Qed.

Lemma handler_flightData (e : engine) (newData : gmap string (list (gmap string number)))
    (vm : component) :
  flightData (handler e newData vm).1 = flightData vm.
Proof.
  rewrite handler_state. destruct (updateFlightInfo_frame e vm) as (Hfd & _).
  destruct (0 <? _); [|done]. cbv zeta.
  destruct (_ && _); [done|]. by destruct (_ =? _).
Qed.

Lemma created_as_change (e : engine) (props : gmap string (list (gmap string number))) :
  created e props = step (blank e) (FlightDataChanged props).
Proof. done. Qed.

Lemma blank_conversation (e : engine) : conversation (blank e).
Proof.
  unfold conversation. simpl.
  repeat split; try done; auto.
Qed.

Lemma blank_greeted (e : engine) : greeted (blank e).
Proof. unfold greeted. simpl. auto. Qed.

Lemma resume_host (r : Axios.settled) (w : world) : host (resume r w) = host w.
Proof.
  unfold resume. destruct r as [response|e]; [|done].
  by destruct (Get _ _).
Qed.

Lemma step_host (w : world) (ev : event) : host (step w ev) = host w.
Proof.
  destruct ev as [text| |i o|newData|now]; simpl; try done.
  - destruct (Chat.sendMessage_cases w) as [->|(H1 & H2 & H3)]; [done|].
    by rewrite Chat.sendMessage_accepted.
  - destruct (inflight w !! i); [|done]. by rewrite resume_host.
Qed.

Lemma run_host (evs : list event) (w : world) : host (run w evs) = host w.
Proof.
  revert w. induction evs as [|ev evs IH]; intros w; [done|].
  simpl. by rewrite IH, step_host.
Qed.

Lemma step_conversation (w : world) (ev : event) :
  conversation w → conversation (step w ev).
Proof.
  intros (Hbusy & Hreq & Hadj & Hidle).
  destruct ev as [text| |i o|newData|now].
  - by unfold conversation.
  - destruct (Chat.sendMessage_cases w) as [Hsame|(H1 & H2 & H3)].
    { simpl. rewrite Hsame. by unfold conversation. }
    simpl. rewrite Chat.sendMessage_accepted by done.
    rewrite H2 in Hbusy. apply nil_length_inv in Hbusy.
    unfold conversation. simpl. rewrite Hbusy. simpl.
    split; [done|]. split.
    { repeat constructor; [done|]. by rewrite last_snoc. }
    split; [|done].
    apply adjacent_snoc; [done|]. intros l Hl. by rewrite (Hidle H2 l Hl).
  - simpl. destruct (inflight w !! i) as [rq|] eqn:E; [|by unfold conversation].
    assert (Hin : rq ∈ inflight w) by (by eapply list_elem_of_lookup_2).
    rewrite Forall_forall in Hreq. destruct (Hreq rq Hin) as (_ & _ & Hlast).
    destruct (Chat.resume_messages (Axios.settle o)
                {| this := this w; inflight := delete i (inflight w);
                   console := console w; nextTick := nextTick w;
                   host := host w |}) as [c Hms].
    unfold conversation.
    rewrite Chat.resume_isLoading, Chat.resume_inflight, Hms.
    simpl.
    assert (Hlen : length (inflight w) = 1).
    { destruct (isLoading (this w)); [done|].
      apply lookup_lt_Some in E. lia. }
    split; [rewrite length_delete by eauto; lia|].
    split.
    { replace (delete i (inflight w)) with (@nil request); [constructor|].
      symmetry. apply nil_length_inv. rewrite length_delete by eauto. lia. }
    split.
    { apply adjacent_snoc; [done|]. intros l Hl. rewrite Hlast in Hl.
      by injection Hl as <-. }
    intros _ m; rewrite last_snoc; by intros [= <-].
  - unfold conversation. simpl.
    destruct (Chat.handler_frame (host w) newData (set_flightData newData (this w)))
      as (_ & ->).
    rewrite Chat.handler_messages. simpl.
    destruct (_ && _ && _) eqn:Hpush; [|done].
    apply andb_prop in Hpush as [_ Hnil%Nat.eqb_eq%nil_length_inv].
    rewrite Hnil in *. simpl.
    split; [done|]. split.
    { destruct (inflight w) as [|rq rqs]; [constructor|].
      apply Forall_inv in Hreq as (_ & _ & Hlast). done. }
    split; [intros i m1 m2 _ H; by destruct i|].
    intros _ m Hm; by simplify_eq.
  - by unfold conversation.
Qed.

Lemma step_greeted (w : world) (ev : event) :
  conversation w → watcher_returns (host w) ev = true →
  greeted w → greeted (step w ev).
Proof.
  intros (_ & Hreq & _) Hret (Hhead & Hnone).
  destruct ev as [text| |i o|newData|now].
  - by unfold greeted.
  - destruct (Chat.sendMessage_cases w) as [Hsame|(H1 & H2 & H3)].
    { simpl. rewrite Hsame. by unfold greeted. }
    simpl. rewrite Chat.sendMessage_accepted by done.
    unfold greeted. simpl.
    split; [|by intros ?%snoc_not_nil].
    right. destruct Hhead as [Hnil|Hg]; [|by apply head_snoc].
    apply Hnone, hasFlightData_empty in Hnil. congruence.
  - simpl. destruct (inflight w !! i) as [rq|] eqn:E; [|by unfold greeted].
    assert (Hin : rq ∈ inflight w) by (by eapply list_elem_of_lookup_2).
    rewrite Forall_forall in Hreq. destruct (Hreq rq Hin) as (_ & _ & Hlast).
    destruct (Chat.resume_messages (Axios.settle o)
                {| this := this w; inflight := delete i (inflight w);
                   console := console w; nextTick := nextTick w;
                   host := host w |}) as [c Hms].
    unfold greeted. rewrite resume_flightData, Hms. simpl.
    split; [|by intros ?%snoc_not_nil].
    right. destruct Hhead as [Hnil|Hg]; [|by apply head_snoc].
    by rewrite Hnil in Hlast.
  - unfold greeted. rewrite Chat.step_greeting. simpl in Hret. rewrite Hret.
    simpl. rewrite handler_flightData. simpl.
    destruct (0 <? length (Object_keys newData)) eqn:Hkeys; simpl;
      [destruct (messages (this w)) as [|m0 ms] eqn:Hms; simpl|].
    + split; [by right|done].
    + split; [|done]. destruct Hhead as [?|?]; [done|by right].
    + split; [done|]. intros _. by apply Chat.Object_keys_empty.
  - by unfold greeted.
Qed.

Lemma run_conversation (evs : list event) (w : world) :
  conversation w → conversation (run w evs).
Proof.
  revert w. induction evs as [|ev evs IH]; intros w Hw; [done|].
  by apply IH, step_conversation.
Qed.

Lemma reached_conversation (e : engine) (props : gmap string (list (gmap string number)))
    (evs : list event) :
  conversation (run (created e props) evs).
Proof.
  apply run_conversation. rewrite created_as_change.
  apply step_conversation, blank_conversation.
Qed.

Lemma run_greeted (evs : list event) (w : world) :
  forallb (watcher_returns (host w)) evs = true →
  conversation w → greeted w → greeted (run w evs).
Proof.
  revert w. induction evs as [|ev evs IH]; intros w Hret Hc Hg; [done|].
  simpl in Hret. apply andb_prop in Hret as [Hev Hevs].
  apply IH; [by rewrite step_host|by apply step_conversation|by apply step_greeted].
Qed.

Lemma reached_greeted (e : engine) (props : gmap string (list (gmap string number)))
    (evs : list event) :
  completes e props = true → forallb (watcher_returns e) evs = true →
  greeted (run (created e props) evs).
Proof.
  intros Hprops Hevs.
  apply run_greeted; [done| |].
  - rewrite created_as_change. apply step_conversation, blank_conversation.
  - rewrite created_as_change.
    apply step_greeted; [apply blank_conversation|done|apply blank_greeted].
Qed.

(** X11: From creation on, whatever happens: the busy flag is set exactly while
    a request is in flight, the button then reads "Sending..." and the
    text box and the button are disabled; and the settling of that request
    leaves nothing in flight and the busy flag cleared. *)
Theorem busy_iff_in_flight (e : engine) (props : gmap string (list (gmap string number)))
    (evs : list event) :
  let w := run (created e props) evs in
  (isLoading (this w) = true ↔ inflight w ≠ [])
  ∧ (button_label (this w) = "Sending..." ↔ inflight w ≠ [])
  ∧ (inflight w ≠ [] → disabled (this w) = true)
  ∧ (∀ i rq o, inflight w !! i = Some rq →
       inflight (step w (Settled i o)) = []
       ∧ isLoading (this (step w (Settled i o))) = false).
Proof.
  intros w. destruct (reached_conversation e props evs) as (Hbusy & _).
  fold w in Hbusy.
  assert (Hiff : isLoading (this w) = true ↔ inflight w ≠ []).
  { destruct (isLoading (this w)).
    - split; [|done]. intros _ Hnil. by rewrite Hnil in Hbusy.
    - apply nil_length_inv in Hbusy. by rewrite Hbusy. }
  split; [exact Hiff|split; [|split]].
  - rewrite <- Hiff. unfold button_label. by destruct (isLoading (this w)).
  - intros Hne%Hiff. unfold disabled. by rewrite Hne.
  - intros i rq o Hrq. simpl. rewrite Hrq.
    rewrite Chat.resume_inflight, Chat.resume_isLoading. simpl. split; [|done].
    apply nil_length_inv. rewrite length_delete by eauto.
    destruct (isLoading (this w)); lia.
Qed.

Lemma busy_iff_in_flight_witness :
  inflight (step waiting (Settled 0 Axios.Timeout)) = []
  ∧ isLoading (this (step waiting (Settled 0 Axios.Timeout))) = false.
Proof.
  exact (proj2 (proj2 (proj2
           (busy_iff_in_flight node log_full [Input "max altitude?"; Submit])))
           0 {| url := "http://localhost:8001/chat";
                message := "max altitude?"; session := None |}
           Axios.Timeout eq_refl).
Defined.

(** X12: From creation on, whatever happens, neighbours in the message list
    have different roles: user and assistant messages alternate. *)
Theorem roles_alternate (e : engine) (props : gmap string (list (gmap string number)))
    (evs : list event) (i : nat) (m1 m2 : Message) :
  messages (this (run (created e props) evs)) !! i = Some m1 →
  messages (this (run (created e props) evs)) !! S i = Some m2 →
  role m1 ≠ role m2.
Proof.
  destruct (reached_conversation e props evs) as (_ & _ & Hadj & _). apply Hadj.
Qed.

Lemma roles_alternate_witness :
  role greeting ≠ role {| role := "user"; content := Str "max altitude?" |}.
Proof.
  exact (roles_alternate node log_full [Input "max altitude?"; Submit] 0
           greeting {| role := "user"; content := Str "max altitude?" |}
           eq_refl eq_refl).
Defined.

(** X13: From creation on, whatever happens: a request in flight goes to the
    fixed endpoint, carries a text that is not blank, and that text is the
    content of the last message of the list, a user message; and when
    nothing is in flight the last message, if there is one, is the
    assistant's. *)
Theorem request_is_last_message (e : engine)
    (props : gmap string (list (gmap string number))) (evs : list event) :
  let w := run (created e props) evs in
  (∀ rq, rq ∈ inflight w →
     url rq = "http://localhost:8001/chat"
     ∧ ¬ whitespace_only (message rq)
     ∧ last (messages (this w))
       = Some {| role := "user"; content := Str (message rq) |})
  ∧ (inflight w = [] →
     ∀ m, last (messages (this w)) = Some m → role m = "assistant").
Proof.
  intros w.
  destruct (reached_conversation e props evs) as (Hbusy & Hreq & _ & Hidle).
  fold w in Hbusy, Hreq, Hidle. split.
  - intros rq Hin. rewrite Forall_forall in Hreq.
    destruct (Hreq rq Hin) as (Hurl & Htext & Hlast).
    split; [done|split; [|done]].
    intros Hws%Acceptance.truthy_trim. congruence.
  - intros Hnil. apply Hidle. rewrite Hnil in Hbusy.
    by destruct (isLoading (this w)).
Qed.

Lemma request_is_last_message_witness :
  last (messages (this waiting))
  = Some {| role := "user"; content := Str "max altitude?" |}.
Proof.
  refine (proj2 (proj2 (proj1
            (request_is_last_message node log_full [Input "max altitude?"; Submit])
            {| url := "http://localhost:8001/chat";
               message := "max altitude?"; session := None |} _))).
  by left.
Defined.

(** X14: From creation on, whatever happens, while the message list is
    empty nothing is in flight; and as long as the watcher's call of
    updateFlightInfo has returned every time (at creation and at each
    change of flightData no alt or volt column is beyond the engine's
    argument limit), the message list is empty or starts with the
    greeting, and it is not empty once flight data is loaded. *)
Theorem greeting_comes_first (e : engine) (props : gmap string (list (gmap string number)))
    (evs : list event) :
  let w := run (created e props) evs in
  (messages (this w) = [] → inflight w = [])
  ∧ (completes e props = true → forallb (watcher_returns e) evs = true →
       (messages (this w) = [] ∨ messages (this w) !! 0 = Some greeting)
       ∧ (flightData (this w) ≠ ∅ → messages (this w) ≠ [])).
Proof.
  intros w. split.
  - destruct (reached_conversation e props evs) as (_ & Hreq & _).
    fold w in Hreq.
    intros Hnil. destruct (inflight w) as [|rq rqs]; [done|].
    apply Forall_inv in Hreq as (_ & _ & Hlast). by rewrite Hnil in Hlast.
  - intros Hprops Hevs.
    destruct (reached_greeted e props evs Hprops Hevs) as (Hhead & Hnone).
    fold w in Hhead, Hnone.
    split; [done|]. intros Hne Hnil. by apply Hne, Hnone.
Qed.

Lemma greeting_comes_first_witness :
  messages (this (run (created node ∅) [FlightDataChanged log_full; Input "hi"; Submit]))
  ≠ [].
Proof.
  refine (proj2 (proj2 (greeting_comes_first node ∅
            [FlightDataChanged log_full; Input "hi"; Submit]) eq_refl eq_refl) _).
  intros H%hasFlightData_empty. vm_compute in H. discriminate.
Defined.

End Conversation.

(* ===================================================================== *)
(** * Sessions, exchanges and reloads *)
(* ===================================================================== *)

Module Panel.
Import Js ChatBot Fields Inputs Summary.

#[local] Open Scope nat_scope.

(** ** The session id *)

(** X18: As long as the component is not mounted again, the session id stays
    what it is — typing, sending, replies, failures and new flight data
    leave it alone — and every request sent carries it. *)
Theorem session_id_is_stable (w : world) (evs : list event) :
  Forall (λ ev, ∀ now, ev ≠ Mounted now) evs →
  Forall (λ rq, session rq = sessionId (this w)) (inflight w) →
  sessionId (this (run w evs)) = sessionId (this w)
  ∧ Forall (λ rq, session rq = sessionId (this w)) (inflight (run w evs)).
Proof.
  intros Hevs. revert w. induction Hevs as [|ev evs Hev _ IH]; intros w Hreq; [done|].
  assert (Hstep : sessionId (this (step w ev)) = sessionId (this w)
                  ∧ Forall (λ rq, session rq = sessionId (this w)) (inflight (step w ev))).
  { destruct ev as [text| |i o|newData|now].
    - done.
    - destruct (Chat.sendMessage_cases w) as [Hsame|(H1 & H2 & H3)].
      + simpl. by rewrite Hsame.
      + simpl. rewrite Chat.sendMessage_accepted by done. simpl.
        split; [done|]. apply Forall_app. split; [done|]. by repeat constructor.
    - simpl. destruct (inflight w !! i); [|done].
      rewrite Chat.resume_inflight. simpl. split.
      + unfold resume. destruct (Axios.settle o) as [response|e]; [|done].
        by destruct (Get _ _).
      + by apply Forall_delete.
    - simpl. split; [|done].
      rewrite handler_state.
      destruct (updateFlightInfo_frame (host w) (set_flightData newData (this w)))
        as (_ & _ & _ & _ & Hsid).
      destruct (0 <? _); [|done]. cbv zeta.
      destruct (_ && _); [done|]. by destruct (_ =? _).
    - by destruct (Hev now). }
  destruct Hstep as (Hsid & Hreq').
  rewrite <- Hsid in Hreq' |- *. by apply IH.
Qed.

Lemma session_id_is_stable_witness :
  sessionId (this (run (step (created node log_full) (Mounted 1700000000000))
     [Input "max altitude?"; Submit; Settled 0 Axios.Timeout; Input "again"; Submit]))
  = Some "1700000000000"
  ∧ Forall (λ rq, session rq = Some "1700000000000")
      (inflight (run (step (created node log_full) (Mounted 1700000000000))
         [Input "max altitude?"; Submit; Settled 0 Axios.Timeout; Input "again"; Submit])).
Proof.
  apply (session_id_is_stable (step (created node log_full) (Mounted 1700000000000))
           [Input "max altitude?"; Submit; Settled 0 Axios.Timeout; Input "again"; Submit]).
  - repeat constructor; discriminate.
  - constructor.
Defined.

(** ** Without flight data *)

(** X15: A panel created without flight data stays inert until flight data
    arrives: whatever is typed or clicked, the message list stays empty,
    nothing is sent, no badge is shown and the text box and the button
    stay disabled. *)
Theorem inert_without_flight_data (e : engine) (evs : list event) :
  Forall (λ ev, ∀ newData, ev ≠ FlightDataChanged newData) evs →
  let w := run (created e ∅) evs in
  messages (this w) = [] ∧ inflight w = [] ∧ console w = []
  ∧ flight_info (this w) = None ∧ disabled (this w) = true.
Proof.
  intros Hevs.
  assert (Hinv : ∀ w : world,
    flightData (this w) = ∅ ∧ messages (this w) = [] ∧ inflight w = [] ∧ console w = [] →
    flightData (this (run w evs)) = ∅ ∧ messages (this (run w evs)) = []
    ∧ inflight (run w evs) = [] ∧ console (run w evs) = []).
  { induction Hevs as [|ev evs Hev _ IH]; intros w (Hfd & Hms & Hfl & Hco); [done|].
    apply IH. destruct ev as [text| |i o|newData|now]; simpl.
    - done.
    - rewrite Chat.sendMessage_rejected; [done|].
      right; right. by apply hasFlightData_empty.
    - by rewrite Hfl.
    - by destruct (Hev newData).
    - done. }
  intros w. destruct (Hinv (created e ∅)) as (Hfd & Hms & Hfl & Hco); [done|].
  fold w in Hfd, Hms, Hfl, Hco.
  assert (Hno : hasFlightData (this w) = false) by (by apply hasFlightData_empty).
  repeat split; try done.
  - unfold flight_info. by rewrite Hno.
  - unfold disabled. rewrite Hno. by destruct (isLoading _).
Qed.

Lemma inert_without_flight_data_witness :
  messages (this (run (created node ∅) [Mounted 5; Input "hello"; Submit; Submit])) = [].
Proof.
  refine (proj1 (inert_without_flight_data node [Mounted 5; Input "hello"; Submit; Submit] _)).
  repeat constructor; discriminate.
Defined.

(** ** One exchange *)

(** X16: From an idle panel with flight data and a text that is not blank: a
    send followed by the settling of its request appends exactly two
    messages, the user's text as typed and one assistant message, clears
    the text box, and leaves the panel idle again with nothing in flight.
    The assistant message is the apology when the request was rejected,
    and the response field of the body when a 2xx body is an object. *)
Theorem one_exchange (w : world) (o : Axios.outcome) :
  ¬ whitespace_only (newMessage (this w)) →
  disabled (this w) = false →
  inflight w = [] →
  let w' := step (step w Submit) (Settled 0 o) in
  ∃ reply,
    messages (this w') =
      messages (this w) ++
        [{| role := "user"; content := Str (newMessage (this w)) |};
         {| role := "assistant"; content := reply |}]
    ∧ newMessage (this w') = ""
    ∧ isLoading (this w') = false
    ∧ inflight w' = []
    ∧ (Axios.rejects o →
       reply = Str "Sorry, there was an error processing your message.")
    ∧ (∀ status fields,
         o = Axios.Response status (Obj fields) →
         Axios.validateStatus status = true →
         reply = assoc "response" fields).
Proof.
  intros Hws Hen Hfl.
  unfold disabled in Hen. apply orb_false_elim in Hen as (H2 & H3%negb_false_iff).
  assert (H1 : truthy (trim (newMessage (this w))) = true).
  { destruct (truthy _) eqn:E; [done|]. by apply Acceptance.truthy_trim in E. }
  cbn [step]. rewrite Chat.sendMessage_accepted by done.
  cbn [post inflight with_this]. rewrite Hfl. cbn [app lookup list_lookup].
  set (w1 := {| this := _; inflight := delete 0 _ |}).
  destruct (Chat.resume_messages (Axios.settle o) w1) as [c Hc].
  exists c. rewrite Hc, Chat.resume_newMessage, Chat.resume_isLoading, Chat.resume_inflight.
  subst w1. cbn. rewrite <- app_assoc. cbn.
  repeat split; try done.
  - intros Hrej. destruct (Chat.settle_rejects o Hrej) as [e He].
    rewrite He, Chat.resume_rejected in Hc. cbn in Hc.
    apply app_inv_head in Hc. by injection Hc as <-.
  - intros status fields -> Hst.
    rewrite Chat.settle_fulfils, Chat.resume_fulfilled in Hc by done. cbn in Hc.
    apply app_inv_head in Hc. by injection Hc as <-.
Qed.

Lemma one_exchange_witness :
  ∃ reply,
    messages (this (step (step typed Submit) (Settled 0
      (Axios.Response 200 (Obj [("response", Str "120 m")]))))) =
      messages (this typed) ++
        [{| role := "user"; content := Str "max altitude?" |};
         {| role := "assistant"; content := reply |}]
    ∧ reply = Str "120 m".
Proof.
  destruct (one_exchange typed (Axios.Response 200 (Obj [("response", Str "120 m")])))
    as (reply & Hms & _ & _ & _ & _ & Hok).
  - intros Hws%Acceptance.truthy_trim. vm_compute in Hws. discriminate.
  - reflexivity.
  - reflexivity.
  - exists reply. split; [exact Hms|]. exact (Hok 200%Z _ eq_refl eq_refl).
Defined.

(** ** What the settling of a request logs and schedules *)

(** X17: A failure (a rejected request, or a 2xx body that is null) writes one
    entry to the developer console and schedules no scroll; a reply that
    can be read writes nothing to the console and schedules one scroll to
    the bottom. *)
Theorem settling_logs_or_scrolls (w : world) (i : nat) (rq : request) :
  inflight w !! i = Some rq →
  (∀ o, Axios.rejects o →
     (∃ e, console (step w (Settled i o)) = console w ++ [e])
     ∧ nextTick (step w (Settled i o)) = nextTick w)
  ∧ (∀ status body e,
       Axios.validateStatus status = true → Get body "response" = Throw e →
       console (step w (Settled i (Axios.Response status body))) = console w ++ [e]
       ∧ nextTick (step w (Settled i (Axios.Response status body))) = nextTick w)
  ∧ (∀ status body c,
       Axios.validateStatus status = true → Get body "response" = Normal c →
       console (step w (Settled i (Axios.Response status body))) = console w
       ∧ nextTick (step w (Settled i (Axios.Response status body))) = S (nextTick w)).
Proof.
  intros Hrq. split; [|split].
  - intros o Hrej. cbn [step]. rewrite Hrq.
    destruct (Chat.settle_rejects o Hrej) as [e ->]. split; [by exists e|done].
  - intros status body e Hst Hget. cbn [step].
    rewrite Hrq, Chat.settle_fulfils by done.
    unfold resume. cbn. by rewrite Hget.
  - intros status body c Hst Hget. cbn [step].
    rewrite Hrq, Chat.settle_fulfils by done.
    unfold resume. cbn. by rewrite Hget.
Qed.

Lemma settling_logs_or_scrolls_witness :
  console (step waiting (Settled 0 (Axios.Response 200 (Obj [])))) = console waiting
  ∧ nextTick (step waiting (Settled 0 (Axios.Response 200 (Obj [])))) = S (nextTick waiting).
Proof.
  exact (proj2 (proj2 (settling_logs_or_scrolls waiting 0
           {| url := "http://localhost:8001/chat";
              message := "max altitude?"; session := None |} eq_refl))
           200%Z (Obj []) Undefined eq_refl eq_refl).
Defined.

End Panel.

(* ===================================================================== *)
(** * Recomputing the summary, and what the header shows of it *)
(* ===================================================================== *)

Module Header.
Import Js ChatBot Fields Inputs Summary.

#[local] Open Scope nat_scope.

Lemma duration_of_twice gps old : duration_of gps (duration_of gps old) = duration_of gps old.
Proof. by destruct gps as [[|first rest]|]. Qed.

Lemma range_of_twice e unit field series old :
  range_of e unit field series (range_of e unit field series old)
  = range_of e unit field series old.
Proof.
  unfold range_of. destruct series as [s|]; [|done].
  destruct (column field s) as [|v values]; [done|]. by destruct (fits e (v :: values)).
Qed.

Lemma updateFlightInfo_hasFlightData (e : engine) (vm : component) :
  hasFlightData (updateFlightInfo e vm).1 = hasFlightData vm.
Proof. unfold hasFlightData. by destruct (updateFlightInfo_frame e vm) as (-> & _). Qed.

Lemma updateFlightInfo_twice (e : engine) (vm : component) :
  (updateFlightInfo e (updateFlightInfo e vm).1).1 = (updateFlightInfo e vm).1.
Proof.
  destruct (hasFlightData vm) eqn:E.
  - assert (E' : hasFlightData (updateFlightInfo e vm).1 = true)
      by (by rewrite updateFlightInfo_hasFlightData).
    rewrite (updateFlightInfo_fields e (updateFlightInfo e vm).1 E').
    destruct (updateFlightInfo_frame e vm) as (-> & _).
    rewrite (updateFlightInfo_fields e vm E). cbn.
    rewrite duration_of_twice, range_of_twice.
    destruct (overflows e "alt" _); by rewrite ?range_of_twice.
  - by rewrite !updateFlightInfo_nodata by (by rewrite ?updateFlightInfo_nodata).
Qed.

(** Running it again ends the way the first run ended. *)
Lemma updateFlightInfo_again (e : engine) (vm : component) :
  updateFlightInfo e (updateFlightInfo e vm).1 = updateFlightInfo e vm.
Proof.
  apply injective_projections; [apply updateFlightInfo_twice|].
  rewrite !updateFlightInfo_completion, updateFlightInfo_hasFlightData.
  by destruct (updateFlightInfo_frame e vm) as (-> & _).
Qed.

Lemma updateFlightInfo_push (e : engine) (m : Message) (vm : component) :
  (updateFlightInfo e (push m vm)).1 = push m (updateFlightInfo e vm).1.
Proof.
  destruct (hasFlightData vm) eqn:E.
  - rewrite (updateFlightInfo_fields e vm E).
    by rewrite (updateFlightInfo_fields e (push m vm) E).
  - rewrite (updateFlightInfo_nodata e vm E).
    by rewrite (updateFlightInfo_nodata e (push m vm) E).
Qed.

(** X1: updateFlightInfo is idempotent, in the state it leaves and in the way
    it ends, and it writes the three summary fields only: putting their
    old values back gives the component it started from. *)
Theorem updateFlightInfo_settles (e : engine) (vm : component) :
  updateFlightInfo e (updateFlightInfo e vm).1 = updateFlightInfo e vm
  ∧ set_flightDuration (flightDuration vm)
      (set_altitudeRange (altitudeRange vm)
         (set_batteryRange (batteryRange vm) (updateFlightInfo e vm).1)) = vm.
Proof.
  split; [apply updateFlightInfo_again|].
  destruct (hasFlightData vm) eqn:E.
  - rewrite (updateFlightInfo_fields e vm E). by destruct vm.
  - rewrite updateFlightInfo_nodata by done. by destruct vm.
Qed.

Lemma set_flightData_same (vm : component) : set_flightData (flightData vm) vm = vm.
Proof. by destruct vm. Qed.

(** X2: Handing the component the same flight data twice in a row is the same
    as handing it over once: the summary is already what it would be
    recomputed to, and no second greeting is appended. *)
Theorem same_flight_data_twice (w : world)
    (newData : gmap string (list (gmap string number))) :
  step (step w (FlightDataChanged newData)) (FlightDataChanged newData)
  = step w (FlightDataChanged newData).
Proof.
  set (e := host w).
  assert (Hvm : (handler e newData
                   (set_flightData newData
                      (handler e newData (set_flightData newData (this w))).1)).1
                = (handler e newData (set_flightData newData (this w))).1).
  { set (vm := set_flightData newData (this w)).
    assert (Hfd : flightData (handler e newData vm).1 = newData)
      by (by rewrite Conversation.handler_flightData).
    rewrite <- Hfd at 2. rewrite set_flightData_same.
    rewrite (handler_state e newData (handler e newData vm).1).
    destruct (0 <? length (Object_keys newData)) eqn:Hkeys; [|done].
    cbv zeta. rewrite Hfd.
    assert (Hhas : hasFlightData (handler e newData vm).1 = hasFlightData vm).
    { unfold hasFlightData. by rewrite Hfd. }
    rewrite Hhas.
    assert (Hup : (updateFlightInfo e (handler e newData vm).1).1
                  = (handler e newData vm).1).
    { rewrite handler_state, Hkeys. cbv zeta.
      destruct (_ && _); [apply updateFlightInfo_twice|].
      destruct (_ =? _); [|apply updateFlightInfo_twice].
      by rewrite updateFlightInfo_push, updateFlightInfo_twice. }
    rewrite Hup.
    change (flightData vm) with newData.
    destruct (hasFlightData vm && negb (completes e newData)) eqn:Hthrow; [done|].
    assert (Hms : messages (handler e newData vm).1 ≠ []).
    { rewrite Chat.handler_messages, Hkeys.
      change (flightData vm) with newData. rewrite Hthrow. simpl.
      by destruct (messages (this w)). }
    destruct (length (messages (handler e newData vm).1) =? 0) eqn:El; [|done].
    by apply Nat.eqb_eq, nil_length_inv in El. }
  cbn [step]. unfold with_this. cbn [this inflight console nextTick host].
  fold e. by rewrite Hvm.
Qed.

(** X5: The header: the flight-info block is rendered exactly when flight data
    is loaded; a range that updateFlightInfo writes (its column, and for
    the battery range the alt column before it, within the engine's
    argument limit) is shown in its badge; but the duration of a GPS
    series of a single record (with a finite timestamp) is 0, which is
    falsy, so no Duration badge is rendered. *)
Theorem badges_follow_fields (e : engine) (vm : component) :
  (flight_info vm = None ↔ flightData vm = ∅)
  ∧ (∀ (att : list (gmap string number)) v values,
       flightData vm !! "ATT" = Some att → column "alt" att = v :: values →
       fits e (v :: values) = true →
       ∃ b, flight_info (updateFlightInfo e vm).1 = Some b
            ∧ altitude_badge b = Some ("Altitude: " +:+ range "m" (v :: values)))
  ∧ (∀ (bat : list (gmap string number)) v values,
       flightData vm !! "BAT" = Some bat → column "volt" bat = v :: values →
       fits e (v :: values) = true →
       (∀ att, flightData vm !! "ATT" = Some att → fits e (column "alt" att) = true) →
       ∃ b, flight_info (updateFlightInfo e vm).1 = Some b
            ∧ battery_badge b = Some ("Battery: " +:+ range "V" (v :: values)))
  ∧ (∀ (msg : gmap string number) t,
       flightData vm !! "GPS" = Some [msg] →
       msg !! "timestamp" = Some t → isFinite t = true →
       ∃ b, flight_info (updateFlightInfo e vm).1 = Some b ∧ duration_badge b = None).
Proof.
  assert (Hshown : ∀ k (series : list (gmap string number)),
            flightData vm !! k = Some series →
            hasFlightData vm = true ∧ hasFlightData (updateFlightInfo e vm).1 = true).
  { intros k series Hk. pose proof (hasFlightData_lookup vm k series Hk) as E.
    split; [done|]. by rewrite updateFlightInfo_hasFlightData. }
  assert (Htruthy : ∀ unit values, truthy (range unit values) = true).
  { intros unit values. unfold range.
    destruct (toFixed _ 1); [|done]. by destruct unit. }
  split; [|split; [|split]].
  - rewrite <- hasFlightData_empty. unfold flight_info.
    by destruct (hasFlightData vm).
  - intros att v values Hatt Hcol Hfits.
    destruct (Hshown "ATT" att Hatt) as (E & E').
    unfold flight_info. rewrite E'. eexists. split; [done|]. simpl.
    rewrite (updateFlightInfo_fields e vm E). simpl.
    rewrite Hatt. unfold range_of. rewrite Hcol, Hfits. simpl. by rewrite Htruthy.
  - intros bat v values Hbat Hcol Hfits Hatt.
    destruct (Hshown "BAT" bat Hbat) as (E & E').
    unfold flight_info. rewrite E'. eexists. split; [done|]. simpl.
    rewrite (updateFlightInfo_fields e vm E). simpl.
    rewrite overflows_fits by done.
    rewrite Hbat. unfold range_of. rewrite Hcol, Hfits. simpl. by rewrite Htruthy.
  - intros msg t Hgps Ht Hfin.
    destruct (Hshown "GPS" [msg] Hgps) as (E & E').
    unfold flight_info. rewrite E'. eexists. split; [done|]. simpl.
    unfold duration_span. rewrite (updateFlightInfo_fields e vm E). simpl.
    rewrite Hgps. simpl. unfold timestamp. rewrite Ht. simpl.
    by rewrite JsFacts.sub_diag.
Qed.

Lemma badges_follow_fields_witness :
  (∃ b, flight_info (updateFlightInfo node (data log_full)).1 = Some b
        ∧ altitude_badge b = Some "Altitude: 1.0m - 5.3m")
  ∧ (∃ b, flight_info (updateFlightInfo node (data {[ "GPS" := gps_one ]})).1 = Some b
          ∧ duration_badge b = None).
Proof.
  split.
  - exact (proj1 (proj2 (badges_follow_fields node (data log_full)))
             att_1_525 (Some (dyadic 1 0)) [Some (dyadic 21 (-2))]
             eq_refl eq_refl eq_refl).
  - exact (proj2 (proj2 (proj2 (badges_follow_fields node (data {[ "GPS" := gps_one ]}))))
             {[ "timestamp" := dyadic 50 0 ]} (dyadic 50 0) eq_refl eq_refl eq_refl).
Defined.

(** X20: When the alt column of the ATT series has more values than a call
    of the engine takes, updateFlightInfo throws a RangeError at the
    spread call on it: the duration has been written by then, the altitude
    range and the battery range are left as they were.  When the volt
    column of the BAT series is the one too long, it throws as well and
    the battery range is left as it was.  With both columns within the
    limit it returns. *)
Theorem updateFlightInfo_overflow (e : engine) (vm : component) :
  (∀ att : list (gmap string number),
     flightData vm !! "ATT" = Some att → fits e (column "alt" att) = false →
     (updateFlightInfo e vm).2 = Throw (RangeError "Maximum call stack size exceeded")
     ∧ flightDuration (updateFlightInfo e vm).1
       = duration_of (flightData vm !! "GPS") (flightDuration vm)
     ∧ altitudeRange (updateFlightInfo e vm).1 = altitudeRange vm
     ∧ batteryRange (updateFlightInfo e vm).1 = batteryRange vm)
  ∧ (∀ bat : list (gmap string number),
       flightData vm !! "BAT" = Some bat → fits e (column "volt" bat) = false →
       (updateFlightInfo e vm).2 = Throw (RangeError "Maximum call stack size exceeded")
       ∧ batteryRange (updateFlightInfo e vm).1 = batteryRange vm)
  ∧ ((∀ att, flightData vm !! "ATT" = Some att → fits e (column "alt" att) = true) →
     (∀ bat, flightData vm !! "BAT" = Some bat → fits e (column "volt" bat) = true) →
     (updateFlightInfo e vm).2 = Normal tt).
Proof.
  assert (Hover : ∀ field (series : list (gmap string number)),
            fits e (column field series) = false →
            overflows e field (Some series) = true).
  { intros field series Hfits. unfold overflows.
    destruct (column field series) as [|v values]; [|by rewrite Hfits].
    by rewrite fits_few in Hfits by (simpl; lia). }
  split; [|split].
  - intros att Hatt Hfits.
    pose proof (hasFlightData_lookup vm "ATT" att Hatt) as E.
    rewrite updateFlightInfo_completion, (updateFlightInfo_fields e vm E), E.
    unfold completes. rewrite Hatt, (Hover "alt" att Hfits). simpl.
    split; [done|split; [done|split; [|done]]].
    unfold range_of. destruct (column "alt" att) as [|v values]; [done|].
    by rewrite Hfits.
  - intros bat Hbat Hfits.
    pose proof (hasFlightData_lookup vm "BAT" bat Hbat) as E.
    rewrite updateFlightInfo_completion, (updateFlightInfo_fields e vm E), E.
    unfold completes. rewrite Hbat, (Hover "volt" bat Hfits), andb_false_r. simpl.
    split; [done|]. destruct (overflows e "alt" _); [done|].
    unfold range_of. destruct (column "volt" bat) as [|v values]; [done|].
    by rewrite Hfits.
  - intros Hatt Hbat. rewrite updateFlightInfo_completion. unfold completes.
    by rewrite !overflows_fits, andb_false_r.
Qed.

Lemma updateFlightInfo_overflow_witness :
  (updateFlightInfo node (data log_long)).2
    = Throw (RangeError "Maximum call stack size exceeded")
  ∧ altitudeRange (updateFlightInfo node (data log_long)).1 = None.
Proof.
  destruct (proj1 (updateFlightInfo_overflow node (data log_long)) att_long)
    as (Hthrow & _ & Hrange & _).
  - apply lookup_singleton_eq.
  - rewrite Chat.column_att_long. unfold fits.
    rewrite length_replicate, N2Nat.id. reflexivity.
  - exact (conj Hthrow Hrange).
Defined.

End Header.

(* ===================================================================== *)
(** * Session ids and formatted durations *)
(* ===================================================================== *)

Module Format.
Import Js ChatBot Inputs.

Lemma Date_toString_int (now : Z) :
  Date_toString now = NilZero.string_of_int (Z.to_int now).
Proof. by destruct now. Qed.

Lemma to_int_proper (now : Z) :
  Z.to_int now ≠ Decimal.Pos Decimal.Nil ∧ Z.to_int now ≠ Decimal.Neg Decimal.Nil.
Proof.
  destruct now as [|p|p]; simpl; split; try done;
    intros [= H]; by apply (DecimalPos.Unsigned.to_uint_nonnil p).
Qed.

(** X19: The session id written at mount is the decimal notation of the time
    stamp: it reads back as that time stamp, so components mounted at
    different milliseconds get different session ids. *)
Theorem session_id_reads_back :
  (∀ now vm,
     (NilZero.int_of_string <$> sessionId (mounted now vm)) = Some (Some (Z.to_int now)))
  ∧ (∀ now now' vm vm',
       sessionId (mounted now vm) = sessionId (mounted now' vm') → now = now').
Proof.
  assert (Hback : ∀ now, NilZero.int_of_string (Date_toString now) = Some (Z.to_int now)).
  { intros now. rewrite Date_toString_int.
    apply NilZero.isi; apply to_int_proper. }
  split.
  - intros now vm. simpl. by rewrite Hback.
  - intros now now' vm vm'. simpl. intros [= H].
    apply DecimalZ.to_int_inj.
    apply (f_equal NilZero.int_of_string) in H. rewrite !Hback in H. congruence.
Qed.

Lemma session_id_reads_back_witness :
  (NilZero.int_of_string <$> sessionId (mounted 1700000000000 (data ∅)))
    = Some (Some (Z.to_int 1700000000000))
  ∧ 1700000000000%Z = 1700000000000%Z.
Proof.
  split.
  - exact (proj1 session_id_reads_back 1700000000000%Z (data ∅)).
  - exact (proj2 session_id_reads_back 1700000000000%Z 1700000000000%Z
             (data ∅) (data log_full) eq_refl).
Defined.

Lemma Object_is_eq (a b : number) : Object_is a b = true → a = b.
Proof.
  destruct a as [s1|s1| |s1 m1 e1], b as [s2|s2| |s2 m2 e2]; simpl; try done.
  - by intros ->%Bool.eqb_prop.
  - by intros ->%Bool.eqb_prop.
  - intros [[->%Bool.eqb_prop ->%Pos.eqb_eq]%andb_prop ->%Z.eqb_eq]%andb_prop. done.
Qed.

(** The two Numbers of formatDuration for every whole number of seconds of
    an hour, and for the ten minutes before zero. *)
Lemma minutes_and_seconds_of_an_hour :
  forallb (λ s : Z,
     Object_is (Math_floor (div (dyadic s 0) (dyadic 60 0))) (dyadic (s / 60) 0)
     && Object_is (Math_floor (rem (dyadic s 0) (dyadic 60 0))) (dyadic (s mod 60) 0))
    (seqZ 0 3600) = true.
Proof. by vm_compute. Qed.

Lemma minutes_and_seconds_below_zero :
  forallb (λ s : Z,
     Object_is (Math_floor (div (dyadic s 0) (dyadic 60 0))) (dyadic (s / 60) 0)
     && Object_is (Math_floor (rem (dyadic s 0) (dyadic 60 0)))
          (if (Z.rem s 60 =? 0)%Z then S754_zero true else dyadic (Z.rem s 60) 0))
    (seqZ (-600) 600) = true.
Proof. by vm_compute. Qed.

Lemma ToString_up_to_sixty :
  forallb (λ q : Z,
     String.eqb (ToString (dyadic q 0)) (digits q)
     && String.eqb (ToString (dyadic (- q) 0))
          (if (q =? 0)%Z then "0" else "-" +:+ digits q))
    (seqZ 0 61) = true.
Proof. by vm_compute. Qed.

Lemma checked {A} (f : A → bool) (l : list A) (x : A) :
  forallb f l = true → x ∈ l → f x = true.
Proof. rewrite forallb_forall, list_elem_of_In. auto. Qed.

Lemma ToString_small (q : Z) :
  (0 <= q <= 60)%Z →
  ToString (dyadic q 0) = digits q
  ∧ ToString (dyadic (- q) 0) = (if (q =? 0)%Z then "0" else "-" +:+ digits q).
Proof.
  intros Hq.
  assert (Hin : q ∈ seqZ 0 61) by (apply elem_of_seqZ; lia).
  apply (checked _ _ q ToString_up_to_sixty) in Hin.
  by apply andb_prop in Hin as [H1%String.eqb_eq H2%String.eqb_eq].
Qed.

(** X6: formatDuration on a whole number of seconds below one hour: the
    minutes, "m", a space, the seconds left over, "s". *)
Theorem formatDuration_whole_seconds (s : Z) :
  (0 <= s < 3600)%Z →
  formatDuration (dyadic s 0) = digits (s / 60) +:+ "m " +:+ digits (s mod 60) +:+ "s".
Proof.
  intros Hs.
  assert (Hin : s ∈ seqZ 0 3600) by (apply elem_of_seqZ; lia).
  apply (checked _ _ s minutes_and_seconds_of_an_hour) in Hin.
  apply andb_prop in Hin as [Hm%Object_is_eq Hr%Object_is_eq].
  unfold formatDuration. rewrite Hm, Hr.
  assert (Hq : (0 <= s / 60 <= 60)%Z).
  { split; [apply Z.div_pos; lia|]. apply Z.div_le_upper_bound; lia. }
  assert (Hrem : (0 <= s mod 60 <= 60)%Z).
  { pose proof (Z.mod_pos_bound s 60). lia. }
  by rewrite (proj1 (ToString_small _ Hq)), (proj1 (ToString_small _ Hrem)).
Qed.

Lemma formatDuration_whole_seconds_witness :
  formatDuration (dyadic 754 0) = "12m 34s".
Proof.
  exact (formatDuration_whole_seconds 754 ltac:(lia)).
Defined.

(** X7: formatDuration on a negative whole number of seconds (down to minus
    ten minutes): the minutes are rounded down and the seconds keep the
    sign of the duration, so the two parts do not add up to it: -90 gives
    "-2m -30s". *)
Theorem formatDuration_negative (s : Z) :
  (-600 <= s < 0)%Z →
  formatDuration (dyadic s 0)
  = "-" +:+ digits (- (s / 60)) +:+ "m "
    +:+ (if (Z.rem s 60 =? 0)%Z then "0" else "-" +:+ digits (- Z.rem s 60)) +:+ "s".
Proof.
  intros Hs.
  assert (Hin : s ∈ seqZ (-600) 600) by (apply elem_of_seqZ; lia).
  apply (checked _ _ s minutes_and_seconds_below_zero) in Hin.
  apply andb_prop in Hin as [Hm%Object_is_eq Hr%Object_is_eq].
  unfold formatDuration. rewrite Hm, Hr.
  assert (Hq : (1 <= - (s / 60) <= 60)%Z).
  { pose proof (Z.div_lt_upper_bound s 60 0 ltac:(lia) ltac:(lia)).
    pose proof (Z.div_le_lower_bound s 60 (-10) ltac:(lia) ltac:(lia)). lia. }
  assert (Hrem : (0 <= - Z.rem s 60 <= 60)%Z).
  { pose proof (Z.rem_bound_pos_neg s 60 ltac:(lia) ltac:(lia)). lia. }
  pose proof (proj2 (ToString_small (- (s / 60)) ltac:(lia))) as Hqs.
  pose proof (proj2 (ToString_small _ Hrem)) as Hrs.
  rewrite Z.opp_involutive in Hqs, Hrs. rewrite Hqs.
  replace (- (s / 60) =? 0)%Z with false by (symmetry; apply Z.eqb_neq; lia).
  destruct (Z.rem s 60 =? 0)%Z eqn:E.
  - done.
  - rewrite Hrs. apply Z.eqb_neq in E.
    by replace (- Z.rem s 60 =? 0)%Z with false by (symmetry; apply Z.eqb_neq; lia).
Qed.

Lemma formatDuration_negative_witness :
  formatDuration (dyadic (-90) 0) = "-2m -30s".
Proof.
  exact (formatDuration_negative (-90) ltac:(lia)).
Defined.

(** X8: formatDuration on a duration that is not finite: the minutes are the
    duration itself and the seconds are NaN. *)
Theorem formatDuration_not_finite (seconds : number) :
  isFinite seconds = false →
  formatDuration seconds = ToString seconds +:+ "m NaNs".
Proof. by destruct seconds as [s|[]| |s m e]. Qed.

Lemma formatDuration_not_finite_witness :
  formatDuration NaN = "NaNm NaNs" ∧ formatDuration Infinity = "Infinitym NaNs".
Proof.
  split.
  - exact (formatDuration_not_finite NaN eq_refl).
  - exact (formatDuration_not_finite Infinity eq_refl).
Defined.

End Format.
